(** * Batch processing pipeline of the PDF data extractor (src/App.tsx)

    A shallow embedding of the batch pipeline, the result sorter, the retry
    controller, the field editor and the export filters of [App.tsx],
    together with the properties the specification states about them.

    Conventions of the embedding
    - a JavaScript string is a [string]; a JavaScript object holding string
      fields (a processed document) is a [gmap string string], so that
      ['f' in d] is [is_Some (d !! "f")], [d.f] is [d !! "f"] (with [None]
      for [undefined]), [{...d}] is [d] and [d.f = v] is [<[f:=v]> d];
    - a JavaScript array is a [list]; [a[i]] is [a !! i];
    - a JavaScript number is a [JS.number]: an integer, an infinity or NaN
      (every timestamp met here is an integer far below 2^53, so the
      floating point subtraction of two of them is exact);
    - the remote service (src/services/geminiService.ts) and the file
      reader (utils/fileUtils) are external: they are the fields of a
      [Service] record over which every statement quantifies. *)

From Stdlib Require Import ZArith Ascii String Sorting.Sorted Sorting.Permutation.
From stdpp Require Import gmap strings list fin_maps.

Open Scope string_scope.

(* ===================================================================== *)
(** * Part I: definitions                                                  *)
(* ===================================================================== *)

(** ** JavaScript numbers and [Array.prototype.sort] *)

Module JS.

Inductive number : Type :=
| Fin (z : Z)
| Infinity
| NegInfinity
| NaN.

#[global] Instance number_eq_dec : EqDecision number.
Proof. solve_decision. Defined.

Definition isNaN (n : number) : bool :=
  match n with NaN => true | _ => false end.

(** [a - b] on numbers. *)
Definition sub (a b : number) : number :=
  match a, b with
  | NaN, _ | _, NaN => NaN
  | Fin x, Fin y => Fin (x - y)
  | Fin _, Infinity => NegInfinity
  | Fin _, NegInfinity => Infinity
  | Infinity, Infinity => NaN
  | Infinity, _ => Infinity
  | NegInfinity, NegInfinity => NaN
  | NegInfinity, _ => NegInfinity
  end.

(** [a <= b] on numbers (false as soon as one side is NaN). *)
Definition leb (a b : number) : bool :=
  match a, b with
  | NaN, _ | _, NaN => false
  | NegInfinity, _ => true
  | _, Infinity => true
  | Fin x, Fin y => (x <=? y)%Z
  | _, _ => false
  end.

Definition ltb (a b : number) : bool :=
  match a, b with
  | NaN, _ | _, NaN => false
  | Fin x, Fin y => (x <? y)%Z
  | NegInfinity, NegInfinity => false
  | NegInfinity, _ => true
  | Infinity, _ => false
  | Fin _, Infinity => true
  | Fin _, NegInfinity => false
  end.

(** ECMA-262 SortCompare with a comparator: the comparator's result is
    converted to a number and a NaN result counts as +0. The outcome is
    kept as its sign. *)
Definition SortCompare {A} (comparefn : A → A → number) (x y : A) : comparison :=
  match comparefn x y with
  | NaN => Eq
  | Fin v => (v ?= 0)%Z
  | Infinity => Gt
  | NegInfinity => Lt
  end.

(** [Array.prototype.sort] with a comparator. ECMA-262 (since ES2019)
    requires the sort to be stable and, for a consistent comparator, the
    result to be ordered by it; that fixes the result, whatever the
    engine's algorithm. It is written here as the stable insertion sort:
    an element moves behind those elements only that compare strictly
    smaller. *)
Fixpoint sort_insert {A} (comparefn : A → A → number) (x : A) (l : list A) : list A :=
  match l with
  | [] => [x]
  | y :: l' =>
      match SortCompare comparefn x y with
      | Gt => y :: sort_insert comparefn x l'
      | _ => x :: l
      end
  end.

Fixpoint sort {A} (comparefn : A → A → number) (l : list A) : list A :=
  match l with
  | [] => []
  | x :: l' => sort_insert comparefn x (sort comparefn l')
  end.

(** [s.split(sep)] for a one-character separator. *)
Fixpoint split_from (sep : ascii) (cur : string) (s : string) : list string :=
  match s with
  | EmptyString => [cur]
  | String c s' =>
      if Ascii.eqb c sep then cur :: split_from sep "" s'
      else split_from sep (cur +:+ String c "") s'
  end.

Definition split (sep : ascii) (s : string) : list string := split_from sep "" s.

(** [\d] of a regular expression without the unicode flag: '0'..'9'. *)
Definition isDigit (c : ascii) : bool :=
  ((48 <=? N_of_ascii c) && (N_of_ascii c <=? 57))%N.

Definition digitValue (c : ascii) : Z := Z.of_N (N_of_ascii c) - 48.

(** [a[i]] on an array of strings, read where the index is known to exist;
    [undefined] interpolates as the text "undefined". *)
Definition at_ (parts : list string) (i : nat) : string :=
  default "undefined" (parts !! i).

End JS.

(** ** The [Date] constructor on the strings the parser builds *)

Module Date.

Local Open Scope Z_scope.

(** What the host does with a day number between 1 and 31 that the month
    does not have ("2024-02-30"): ECMA-262 leaves it to the
    implementation. Some engines reject the string (Invalid Date), others
    accept it and let the day run over into the next month. *)
Inductive Host : Type := StrictCalendar | RollOver.

Definition msPerDay : Z := 86400000.

(** ECMA-262 DayFromYear. *)
Definition DayFromYear (y : Z) : Z :=
  365 * (y - 1970) + (y - 1969) / 4 - (y - 1901) / 100 + (y - 1601) / 400.

Definition InLeapYear (y : Z) : bool :=
  (y mod 4 =? 0) && (negb (y mod 100 =? 0) || (y mod 400 =? 0)).

(** Days of each month; [m] from 1 to 12. *)
Definition DaysInMonth (y m : Z) : Z :=
  if m =? 2 then (if InLeapYear y then 29 else 28)
  else if (m =? 4) || (m =? 6) || (m =? 9) || (m =? 11) then 30
  else 31.

(** Number of days of the year before month [m] (1 to 12) starts. *)
Definition daysBeforeMonth (y m : Z) : Z :=
  foldr Z.add 0 (map (DaysInMonth y) (map Z.of_nat (seq 1 (Z.to_nat (m - 1))))).

(** ECMA-262 MakeDay for a month in range, then MakeDate at time 0 (UTC
    midnight, the reading of a date-only ISO string). *)
Definition utc (y m d : Z) : Z :=
  (DayFromYear y + daysBeforeMonth y m + (d - 1)) * msPerDay.

Definition accepts (h : Host) (y m d : Z) : bool :=
  (1 <=? m) && (m <=? 12) && (1 <=? d) && (d <=? 31) &&
  match h with
  | StrictCalendar => d <=? DaysInMonth y m
  | RollOver => true
  end.

(** The time value of the date [y]-[m]-[d], NaN for an invalid date. *)
Definition timeOf (h : Host) (y m d : Z) : JS.number :=
  if accepts h y m d then JS.Fin (utc y m d) else JS.NaN.

Definition num2 (a b : ascii) : Z := 10 * JS.digitValue a + JS.digitValue b.

Definition num4 (a b c d : ascii) : Z :=
  1000 * JS.digitValue a + 100 * JS.digitValue b + 10 * JS.digitValue c + JS.digitValue d.

(** [new Date(s).getTime()] for a date-only ISO string "YYYY-MM-DD", the
    one shape [parseSortableDate] passes; no other shape is modelled (it
    reads as an invalid date). *)
Definition getTime_of_new (h : Host) (s : string) : JS.number :=
  match list_ascii_of_string s with
  | [y1; y2; y3; y4; s1; m1; m2; s2; d1; d2] =>
      if forallb JS.isDigit [y1; y2; y3; y4; m1; m2; d1; d2]
         && Ascii.eqb s1 "-" && Ascii.eqb s2 "-"
      then timeOf h (num4 y1 y2 y3 y4) (num2 m1 m2) (num2 d1 d2)
      else JS.NaN
  | _ => JS.NaN
  end.

End Date.

(** ** [parseSortableDate] (App.tsx, lines 26-52) *)

(** [/^\d{2}<sep>\d{2}<sep>\d{2}$/.test(s)] *)
Definition test_dd_dd_dd (sep : ascii) (s : string) : bool :=
  match list_ascii_of_string s with
  | [a; b; s1; c; d; s2; e; f] =>
      JS.isDigit a && JS.isDigit b && Ascii.eqb s1 sep &&
      JS.isDigit c && JS.isDigit d && Ascii.eqb s2 sep &&
      JS.isDigit e && JS.isDigit f
  | _ => false
  end.

(** The block "Try parsing MM/DD/YY": [Some t] when it returns [t], [None]
    when control falls through to the next block. *)
Definition tryMMDDYY (h : Date.Host) (dateString : string) : option JS.number :=
  if test_dd_dd_dd "/" dateString then
    let parts := JS.split "/" dateString in
    if (length parts =? 3)%nat then
      let isoDateString :=
        "20" +:+ JS.at_ parts 2 +:+ "-" +:+ JS.at_ parts 0 +:+ "-" +:+ JS.at_ parts 1 in
      let t := Date.getTime_of_new h isoDateString in
      if negb (JS.isNaN t) then Some t else None
    else None
  else None.

(** The block "Try parsing DD-MM-YY". *)
Definition tryDDMMYY (h : Date.Host) (dateString : string) : option JS.number :=
  if test_dd_dd_dd "-" dateString then
    let parts := JS.split "-" dateString in
    if (length parts =? 3)%nat then
      let isoDateString :=
        "20" +:+ JS.at_ parts 2 +:+ "-" +:+ JS.at_ parts 1 +:+ "-" +:+ JS.at_ parts 0 in
      let t := Date.getTime_of_new h isoDateString in
      if negb (JS.isNaN t) then Some t else None
    else None
  else None.

Definition parseSortableDate (h : Date.Host) (dateString : string) : JS.number :=
  if String.eqb dateString "" then JS.Infinity
  else
    match tryMMDDYY h dateString with
    | Some t => t
    | None =>
        match tryDDMMYY h dateString with
        | Some t => t
        | None => JS.Infinity
        end
    end.

(** The calendar date a date string of one of the two patterns writes:
    year, month, day. *)
Definition calendarDate (s : string) : option (Z * Z * Z) :=
  match list_ascii_of_string s with
  | [a; b; s1; c; d; s2; e; f] =>
      if forallb JS.isDigit [a; b; c; d; e; f] then
        if Ascii.eqb s1 "/" && Ascii.eqb s2 "/" then
          Some ((2000 + Date.num2 e f)%Z, Date.num2 a b, Date.num2 c d)
        else if Ascii.eqb s1 "-" && Ascii.eqb s2 "-" then
          Some ((2000 + Date.num2 e f)%Z, Date.num2 c d, Date.num2 a b)
        else None
      else None
  | _ => None
  end.

(** A date of the calendar: the month has that day. *)
Definition validDate (c : Z * Z * Z) : bool :=
  Date.accepts Date.StrictCalendar c.1.1 c.1.2 c.2.

(** The parser as the specification words it: two literal patterns of
    two-digit segments, century 2000, and positive infinity for everything
    else and for a string that writes no date of the calendar. No host
    enters: a day the month does not have is an invalid date. *)
Definition spec_parseSortableDate (s : string) : JS.number :=
  match calendarDate s with
  | Some c => if validDate c then JS.Fin (Date.utc c.1.1 c.1.2 c.2) else JS.Infinity
  | None => JS.Infinity
  end.

(** ** Data model (src/types.ts) *)

Record File : Type := { name : string; content : string }.

Inductive DocumentType : Type :=
  workOrder | supplyRequest | uninstallation | installation.

(** What [classifyDocument] resolves to. It catches every error of the
    remote call itself and answers ['unknown'] then, so it never throws. *)
Inductive Classification : Type :=
| Known (type : DocumentType)
| unknown.

(** The string a document type is at run time. *)
Definition typeName (t : DocumentType) : string :=
  match t with
  | workOrder => "workOrder"
  | supplyRequest => "supplyRequest"
  | uninstallation => "uninstallation"
  | installation => "installation"
  end.

Module ExtractedWorkOrderData.
Record t : Type :=
  { orden : string; serie : string; fechaRegistro : string;
    categoria : string; descripcion : string; fechaCierre : string }.
End ExtractedWorkOrderData.

Module ExtractedSupplyData.
Record t : Type :=
  { orden : string; serie : string; fechaRegistro : string;
    contadorBN : string; fechaEntrega : string }.
End ExtractedSupplyData.

Module ExtractedUninstallationData.
Record t : Type :=
  { folio : string; serie : string; fecha : string; contadorBN : string;
    contadorColor : string; contadorEscaner : string; comentarios : string }.
End ExtractedUninstallationData.

Module ExtractedInstallationData.
Record t : Type :=
  { folio : string; serie : string; fecha : string; contadorBN : string;
    comentarios : string }.
End ExtractedInstallationData.

(** A processed document ([AnyProcessedDocument]): an object of string
    fields, [error] being optional. *)
Abbreviation Doc := (gmap string string).

(** ** Exceptions *)

(** The outcome of an awaited call: a value, or a thrown [Error] of which
    the handlers read the [message] only. *)
Inductive Result (A : Type) : Type :=
| Ok (a : A)
| Throw (message : string).
Arguments Ok {A} a.
Arguments Throw {A} message.

#[global] Instance Result_bind : MBind Result :=
  λ A B f r, match r with Ok a => f a | Throw m => Throw m end.

(** [message || fallback] *)
Definition orElse (message fallback : string) : string :=
  if String.eqb message "" then fallback else message.

(** ** External collaborators *)

Record Service : Type :=
  { fileToBase64 : File → Result string;
    classifyDocument : string → Classification;
    extractWorkOrderDataFromPdf : string → Result ExtractedWorkOrderData.t;
    extractSupplyDataFromPdf : string → Result ExtractedSupplyData.t;
    extractUninstallationDataFromPdf : string → Result ExtractedUninstallationData.t;
    extractInstallationDataFromPdf : string → Result ExtractedInstallationData.t }.

(** ** The batch pipeline: [handleProcessFiles] (App.tsx, lines 126-243) *)

Definition failureMarker : string := "Fallo de Procesamiento".

(** [`${id}.pdf`] when [id] is truthy, else the file's name. *)
Definition archivoFor (id fileName : string) : string :=
  if String.eqb id "" then fileName else id +:+ ".pdf".

(** The body of the [try] block for one file: the document pushed on
    [allData], or the error thrown. *)
Definition tryProcessFile (svc : Service) (file : File) : Result Doc :=
  base64String ← fileToBase64 svc file;
  match classifyDocument svc base64String with
  | unknown => Throw "No se pudo reconocer el tipo de documento."
  | Known workOrder =>
      extractedData ← extractWorkOrderDataFromPdf svc base64String;
      Ok (list_to_map
        [ ("type", "workOrder");
          ("orden", ExtractedWorkOrderData.orden extractedData);
          ("archivo", archivoFor (ExtractedWorkOrderData.orden extractedData) (name file));
          ("serie", ExtractedWorkOrderData.serie extractedData);
          ("fechaRegistro", ExtractedWorkOrderData.fechaRegistro extractedData);
          ("categoria", ExtractedWorkOrderData.categoria extractedData);
          ("descripcion", ExtractedWorkOrderData.descripcion extractedData);
          ("fechaCierre", ExtractedWorkOrderData.fechaCierre extractedData);
          ("originalFileName", name file) ])
  | Known supplyRequest =>
      extractedData ← extractSupplyDataFromPdf svc base64String;
      Ok (list_to_map
        [ ("type", "supplyRequest");
          ("orden", ExtractedSupplyData.orden extractedData);
          ("archivo", archivoFor (ExtractedSupplyData.orden extractedData) (name file));
          ("serie", ExtractedSupplyData.serie extractedData);
          ("fechaRegistro", ExtractedSupplyData.fechaRegistro extractedData);
          ("contador", ExtractedSupplyData.contadorBN extractedData);
          ("fechaEntrega", ExtractedSupplyData.fechaEntrega extractedData);
          ("originalFileName", name file) ])
  | Known uninstallation =>
      extractedData ← extractUninstallationDataFromPdf svc base64String;
      let archivoNombre :=
        archivoFor (ExtractedUninstallationData.folio extractedData) (name file) in
      Ok (list_to_map
        [ ("type", "uninstallation");
          ("orden", ExtractedUninstallationData.folio extractedData);
          ("archivo", archivoNombre);
          ("serie", ExtractedUninstallationData.serie extractedData);
          ("fecha", ExtractedUninstallationData.fecha extractedData);
          ("contadorBN", ExtractedUninstallationData.contadorBN extractedData);
          ("contadorColor", ExtractedUninstallationData.contadorColor extractedData);
          ("contadorEscaner", ExtractedUninstallationData.contadorEscaner extractedData);
          ("link", archivoNombre);
          ("comentarios", ExtractedUninstallationData.comentarios extractedData);
          ("originalFileName", name file) ])
  | Known installation =>
      extractedData ← extractInstallationDataFromPdf svc base64String;
      let archivoNombre :=
        archivoFor (ExtractedInstallationData.folio extractedData) (name file) in
      Ok (list_to_map
        [ ("type", "installation");
          ("orden", ExtractedInstallationData.folio extractedData);
          ("archivo", archivoNombre);
          ("serie", ExtractedInstallationData.serie extractedData);
          ("fecha", ExtractedInstallationData.fecha extractedData);
          ("contadorBN", ExtractedInstallationData.contadorBN extractedData);
          ("link", archivoNombre);
          ("comentarios", ExtractedInstallationData.comentarios extractedData);
          ("originalFileName", name file) ])
  end.

(** The record the [catch] block pushes. *)
Definition failureRecord (file : File) (errorMessage : string) : Doc :=
  list_to_map
    [ ("type", "workOrder");
      ("orden", failureMarker);
      ("archivo", name file);
      ("serie", "Error");
      ("fechaRegistro", "");
      ("categoria", "Error");
      ("descripcion", "Error");
      ("fechaCierre", "");
      ("originalFileName", name file);
      ("error", errorMessage) ].

(** One turn of the loop: what is pushed on [allData] for [file]. *)
Definition processFile (svc : Service) (file : File) : Doc :=
  match tryProcessFile svc file with
  | Ok doc => doc
  | Throw message =>
      failureRecord file (orElse message "Ocurrió un error desconocido.")
  end.

(** The [for] loop from index [i] on. The service is asked once per file;
    [world i] is how it behaves while file number [i] is processed (it may
    answer differently from one request to the next). Each turn also
    publishes a copy of [allData] and waits 200 ms; neither changes what the
    loop accumulates. *)
Fixpoint processLoop (world : nat → Service) (i : nat) (files : list File)
    (allData : list Doc) : list Doc :=
  match files with
  | [] => allData
  | file :: rest =>
      processLoop world (S i) rest (allData ++ [processFile (world i) file])
  end.

(** The date string a document is sorted by:
    ['fechaRegistro' in a ? a.fechaRegistro : ('fecha' in a ? a.fecha : '')] *)
Definition sortDateString (a : Doc) : string :=
  match a !! "fechaRegistro" with
  | Some s => s
  | None => match a !! "fecha" with Some s => s | None => "" end
  end.

Definition sortKey (h : Date.Host) (a : Doc) : JS.number :=
  parseSortableDate h (sortDateString a).

(** The comparator handed to [sort]: [dateA - dateB]. *)
Definition compareByDate (h : Date.Host) (a b : Doc) : JS.number :=
  let dateA := parseSortableDate h (sortDateString a) in
  let dateB := parseSortableDate h (sortDateString b) in
  JS.sub dateA dateB.

(** [d.orden !== 'Fallo de Procesamiento'] *)
Definition notFailed (d : Doc) : bool :=
  negb (bool_decide (d !! "orden" = Some failureMarker)).

(** [d.type === t] *)
Definition hasType (t : DocumentType) (d : Doc) : bool :=
  bool_decide (d !! "type" = Some (typeName t)).

Inductive Toast : Type :=
| ToastSelectFiles
| ToastCompleted (successCount failCount : nat).

Record AppState : Type :=
  { files : list File;
    processedData : list Doc;
    isLoading : bool;
    retryingIndex : option nat;
    previewDocumentType : option DocumentType;
    toast : option Toast }.

Definition handleProcessFiles (h : Date.Host) (world : nat → Service)
    (st : AppState) : AppState :=
  if (length (files st) =? 0)%nat then
    {| files := files st; processedData := processedData st;
       isLoading := isLoading st; retryingIndex := retryingIndex st;
       previewDocumentType := previewDocumentType st;
       toast := Some ToastSelectFiles |}
  else
    let allData := processLoop world 0 (files st) [] in
    let sortedData := JS.sort (compareByDate h) allData in
    let successCount := length (List.filter notFailed allData) in
    let failCount := (length allData - successCount)%nat in
    {| files := files st; processedData := sortedData;
       isLoading := false; retryingIndex := retryingIndex st;
       previewDocumentType := previewDocumentType st;
       toast := Some (ToastCompleted successCount failCount) |}.

(** ** The retry controller: [handleRetryFile] (App.tsx, lines 245-350) *)

(** The body of the [try] block of a retry. *)
Definition tryRetryFile (svc : Service) (originalFile : File) : Result Doc :=
  base64String ← fileToBase64 svc originalFile;
  match classifyDocument svc base64String with
  | unknown => Throw "No se pudo reconocer el tipo de documento al reintentar."
  | Known workOrder =>
      extractedData ← extractWorkOrderDataFromPdf svc base64String;
      Ok (list_to_map
        [ ("type", "workOrder");
          ("orden", ExtractedWorkOrderData.orden extractedData);
          ("archivo", archivoFor (ExtractedWorkOrderData.orden extractedData) (name originalFile));
          ("serie", ExtractedWorkOrderData.serie extractedData);
          ("fechaRegistro", ExtractedWorkOrderData.fechaRegistro extractedData);
          ("categoria", ExtractedWorkOrderData.categoria extractedData);
          ("descripcion", ExtractedWorkOrderData.descripcion extractedData);
          ("fechaCierre", ExtractedWorkOrderData.fechaCierre extractedData);
          ("originalFileName", name originalFile) ])
  | Known supplyRequest =>
      extractedData ← extractSupplyDataFromPdf svc base64String;
      Ok (list_to_map
        [ ("type", "supplyRequest");
          ("orden", ExtractedSupplyData.orden extractedData);
          ("archivo", archivoFor (ExtractedSupplyData.orden extractedData) (name originalFile));
          ("serie", ExtractedSupplyData.serie extractedData);
          ("fechaRegistro", ExtractedSupplyData.fechaRegistro extractedData);
          ("contador", ExtractedSupplyData.contadorBN extractedData);
          ("fechaEntrega", ExtractedSupplyData.fechaEntrega extractedData);
          ("originalFileName", name originalFile) ])
  | Known uninstallation =>
      extractedData ← extractUninstallationDataFromPdf svc base64String;
      let archivoNombre :=
        archivoFor (ExtractedUninstallationData.folio extractedData) (name originalFile) in
      Ok (list_to_map
        [ ("type", "uninstallation");
          ("orden", ExtractedUninstallationData.folio extractedData);
          ("archivo", archivoNombre);
          ("serie", ExtractedUninstallationData.serie extractedData);
          ("fecha", ExtractedUninstallationData.fecha extractedData);
          ("contadorBN", ExtractedUninstallationData.contadorBN extractedData);
          ("contadorColor", ExtractedUninstallationData.contadorColor extractedData);
          ("contadorEscaner", ExtractedUninstallationData.contadorEscaner extractedData);
          ("link", archivoNombre);
          ("comentarios", ExtractedUninstallationData.comentarios extractedData);
          ("originalFileName", name originalFile) ])
  | Known installation =>
      extractedData ← extractInstallationDataFromPdf svc base64String;
      let archivoNombre :=
        archivoFor (ExtractedInstallationData.folio extractedData) (name originalFile) in
      Ok (list_to_map
        [ ("type", "installation");
          ("orden", ExtractedInstallationData.folio extractedData);
          ("archivo", archivoNombre);
          ("serie", ExtractedInstallationData.serie extractedData);
          ("fecha", ExtractedInstallationData.fecha extractedData);
          ("contadorBN", ExtractedInstallationData.contadorBN extractedData);
          ("link", archivoNombre);
          ("comentarios", ExtractedInstallationData.comentarios extractedData);
          ("originalFileName", name originalFile) ])
  end.

(** [files.find(f => f.name === doc.originalFileName)] *)
Definition findOriginalFile (files : list File) (doc : Doc) : option File :=
  List.find (λ f, bool_decide (Some (name f) = doc !! "originalFileName")) files.

(** How a call of [handleRetryFile] ends. *)
Inductive RetryOutcome : Type :=
| RetryThrew          (* [processedData[index]] is undefined: reading its
                         [originalFileName] throws before anything is done *)
| RetryNoFile         (* no file of that name: logged, early return *)
| RetryReplaced       (* the [try] block completed *)
| RetryFailed.        (* the [catch] block ran *)

(** A retry that runs alone: the array the handler reads
    [processedData[index]] from is the array its state update is applied
    to, nothing else having changed the state while the retry awaited the
    service. The index written is then one that exists, so the write is in
    place. [handleRetryFileAt] below keeps the two arrays apart. *)
Definition handleRetryFile (svc : Service) (st : AppState) (index : nat)
    : AppState * RetryOutcome :=
  match processedData st !! index with
  | None =>
      ({| files := files st; processedData := processedData st;
          isLoading := isLoading st; retryingIndex := Some index;
          previewDocumentType := previewDocumentType st; toast := toast st |},
       RetryThrew)
  | Some docToRetry =>
      match findOriginalFile (files st) docToRetry with
      | None =>
          ({| files := files st; processedData := processedData st;
              isLoading := isLoading st; retryingIndex := None;
              previewDocumentType := previewDocumentType st; toast := toast st |},
           RetryNoFile)
      | Some originalFile =>
          match tryRetryFile svc originalFile with
          | Ok newData =>
              let updatedData := <[index := newData]> (processedData st) in
              ({| files := files st; processedData := updatedData;
                  isLoading := isLoading st; retryingIndex := None;
                  previewDocumentType := previewDocumentType st; toast := toast st |},
               RetryReplaced)
          | Throw message =>
              let errorMessage := orElse message "El intento de re-procesar falló." in
              let failedDoc := <["error" := errorMessage]> docToRetry in
              let updatedData := <[index := failedDoc]> (processedData st) in
              ({| files := files st; processedData := updatedData;
                  isLoading := isLoading st; retryingIndex := None;
                  previewDocumentType := previewDocumentType st; toast := toast st |},
               RetryFailed)
          end
      end
  end.

(** ** The field editor: [handleDataUpdate] (App.tsx, lines 112-124) *)

(** The rows the preview modal shows:
    [documentType ? processedData.filter(d => d.type === documentType) : []] *)
Definition dataForModal (documentType : option DocumentType)
    (processedData : list Doc) : list Doc :=
  match documentType with
  | Some t => List.filter (hasType t) processedData
  | None => []
  end.

(** [a.findIndex(p)], [None] for -1. *)
Definition findIndex {A} (p : A → bool) (a : list A) : option nat :=
  fst <$> list_find (λ x, p x = true) a.

(** [d[f] = v] for a key computed at run time and a string [v]. On an
    object made by a spread, [__proto__] names the accessor inherited from
    [Object.prototype], whose setter ignores a value that is not an object:
    that assignment changes nothing. Any other key is set. *)
Definition assignField (f v : string) (d : Doc) : Doc :=
  if String.eqb f "__proto__" then d else <[f := v]> d.

(** The state updater the callback hands to [setProcessedData]. The callback
    was created by a render that saw [captured]: [captured]'s
    [processedData] and [previewDocumentType] are the values in its closure.
    [prevData] is the array the updater receives when it runs. *)
Definition handleDataUpdate (captured : AppState) (index : nat)
    (field value : string) (prevData : list Doc) : list Doc :=
  let newData := prevData in
  let dataForModal :=
    dataForModal (previewDocumentType captured) (processedData captured) in
  let target : option string := dataForModal !! index ≫= (.!! "originalFileName") in
  match findIndex (λ item : Doc, bool_decide (item !! "originalFileName" = target)) prevData with
  | Some originalIndex =>
      match newData !! originalIndex with
      | Some item => <[originalIndex := assignField field value item]> newData
      | None => newData
      end
  | None => newData
  end.

(** What the specification asks of the editor: the row is resolved in the
    modal view of the current array, and that very document is changed.
    [positionOfRow p data row] is the position in [data] of row number
    [row] of the view [data.filter(p)]. *)
Fixpoint positionOfRow {A} (p : A → bool) (data : list A) (row : nat) : option nat :=
  match data with
  | [] => None
  | x :: rest =>
      if p x then
        match row with
        | O => Some O
        | S row' => S <$> positionOfRow p rest row'
        end
      else S <$> positionOfRow p rest row
  end.

Definition spec_dataUpdate (documentType : option DocumentType) (index : nat)
    (field value : string) (data : list Doc) : list Doc :=
  match documentType with
  | None => data
  | Some t =>
      match positionOfRow (hasType t) data index with
      | Some originalIndex =>
          match data !! originalIndex with
          | Some item => <[originalIndex := assignField field value item]> data
          | None => data
          end
      | None => data
      end
  end.

(** Opening the preview modal on the documents of one type:
    [setPreviewModalState({ isOpen: true, documentType })]. *)
Definition openPreview (documentType : DocumentType) (st : AppState) : AppState :=
  {| files := files st; processedData := processedData st;
     isLoading := isLoading st; retryingIndex := retryingIndex st;
     previewDocumentType := Some documentType; toast := toast st |}.

(** ** Export and archive filters (App.tsx, lines 352-379) *)

Record ExportData : Type :=
  { workOrders : list Doc;
    supplyRequests : list Doc;
    uninstallations : list Doc;
    installations : list Doc }.

(** The four sheets handed to [exportToExcel], or [None] when all of them
    are empty and nothing is exported. *)
Definition handleExportAll (st : AppState) : option ExportData :=
  let dataToExport :=
    {| workOrders := List.filter (λ d, hasType workOrder d && notFailed d) (processedData st);
       supplyRequests := List.filter (λ d, hasType supplyRequest d && notFailed d) (processedData st);
       uninstallations := List.filter (λ d, hasType uninstallation d && notFailed d) (processedData st);
       installations := List.filter (λ d, hasType installation d && notFailed d) (processedData st) |} in
  if existsb (λ arr : list Doc, (0 <? length arr)%nat)
       [workOrders dataToExport; supplyRequests dataToExport;
        uninstallations dataToExport; installations dataToExport]
  then Some dataToExport else None.

(** The calls [zip.file(doc.archivo, originalFile)] the handler makes, in
    order, each as its two arguments; [None] when there is nothing to zip
    and the handler returns at once. What the archive holds after them is
    JSZip's: a later call with the name of an earlier one replaces its
    entry. *)
Definition handleDownloadZip (st : AppState) (docType : DocumentType)
    : option (list (option string * File)) :=
  let dataToZip := List.filter (λ d, hasType docType d && notFailed d) (processedData st) in
  if (length dataToZip =? 0)%nat then None
  else
    Some (omap (λ doc : Doc,
                  if notFailed doc then
                    match findOriginalFile (files st) doc with
                    | Some originalFile => Some (doc !! "archivo", originalFile)
                    | None => None
                    end
                  else None) dataToZip).

(** ** Vocabulary of the statements *)

(** What the service answers for one file: the file could not be read, the
    classifier did not recognise it, the extractor of its type raised, or
    the extractor of its type returned a record. *)
Inductive Extracted : Type :=
| ExWorkOrder (r : ExtractedWorkOrderData.t)
| ExSupplyRequest (r : ExtractedSupplyData.t)
| ExUninstallation (r : ExtractedUninstallationData.t)
| ExInstallation (r : ExtractedInstallationData.t).

Inductive Answer : Type :=
| ReadError (message : string)
| Unrecognised
| ExtractorError (type : DocumentType) (message : string)
| Success (e : Extracted).

Definition answer (svc : Service) (file : File) : Answer :=
  match fileToBase64 svc file with
  | Throw m => ReadError m
  | Ok b =>
      match classifyDocument svc b with
      | unknown => Unrecognised
      | Known workOrder =>
          match extractWorkOrderDataFromPdf svc b with
          | Ok r => Success (ExWorkOrder r)
          | Throw m => ExtractorError workOrder m
          end
      | Known supplyRequest =>
          match extractSupplyDataFromPdf svc b with
          | Ok r => Success (ExSupplyRequest r)
          | Throw m => ExtractorError supplyRequest m
          end
      | Known uninstallation =>
          match extractUninstallationDataFromPdf svc b with
          | Ok r => Success (ExUninstallation r)
          | Throw m => ExtractorError uninstallation m
          end
      | Known installation =>
          match extractInstallationDataFromPdf svc b with
          | Ok r => Success (ExInstallation r)
          | Throw m => ExtractorError installation m
          end
      end
  end.

Definition typeOf (e : Extracted) : DocumentType :=
  match e with
  | ExWorkOrder _ => workOrder
  | ExSupplyRequest _ => supplyRequest
  | ExUninstallation _ => uninstallation
  | ExInstallation _ => installation
  end.

(** The primary identifier of an extracted record: [orden] of a work order
    or supply request, [folio] of an installation or uninstallation. *)
Definition primaryIdentifier (e : Extracted) : string :=
  match e with
  | ExWorkOrder r => ExtractedWorkOrderData.orden r
  | ExSupplyRequest r => ExtractedSupplyData.orden r
  | ExUninstallation r => ExtractedUninstallationData.folio r
  | ExInstallation r => ExtractedInstallationData.folio r
  end.

(** The date string of an extracted record that the sorter reads. *)
Definition dateOf (e : Extracted) : string :=
  match e with
  | ExWorkOrder r => ExtractedWorkOrderData.fechaRegistro r
  | ExSupplyRequest r => ExtractedSupplyData.fechaRegistro r
  | ExUninstallation r => ExtractedUninstallationData.fecha r
  | ExInstallation r => ExtractedInstallationData.fecha r
  end.

(** The fields of the document built from the extracted record [e] of a
    file named [fileName]. *)
Definition wellFormed (fileName : string) (e : Extracted) (d : Doc) : Prop :=
  d !! "type" = Some (typeName (typeOf e)) ∧
  d !! "orden" = Some (primaryIdentifier e) ∧
  d !! "archivo" = Some (archivoFor (primaryIdentifier e) fileName) ∧
  d !! "originalFileName" = Some fileName ∧
  d !! "error" = None ∧
  sortDateString d = dateOf e ∧
  d !! "link" = match typeOf e with
                | uninstallation | installation =>
                    Some (archivoFor (primaryIdentifier e) fileName)
                | _ => None
                end.

(** The failure message the batch records for each way of failing. *)
Definition batchErrorMessage (a : Answer) : option string :=
  match a with
  | ReadError m | ExtractorError _ m => Some (orElse m "Ocurrió un error desconocido.")
  | Unrecognised => Some "No se pudo reconocer el tipo de documento."
  | Success _ => None
  end.

(** A date string the parser has no pattern for: empty, or matching neither
    regular expression. *)
Definition unparseable (s : string) : Prop :=
  s = "" ∨ (test_dd_dd_dd "/" s = false ∧ test_dd_dd_dd "-" s = false).

(** [a] occurs somewhere before [b] in [l]. *)
Definition before {A} (a b : A) (l : list A) : Prop :=
  ∃ l1 l2 l3 : list A, l = (l1 ++ a :: l2 ++ b :: l3)%list.



Definition isFailed (d : Doc) : Prop := d !! "orden" = Some failureMarker.


(** For an installation or uninstallation document, [link] is there and
    equals [archivo]. *)
Definition linkIsArchivo (d : Doc) : Prop :=
  d !! "type" = Some "uninstallation" ∨ d !! "type" = Some "installation" →
  is_Some (d !! "link") ∧ d !! "link" = d !! "archivo".

(** The successes and failures of the batch summary. *)
Definition summaryOf (st : AppState) : option (nat * nat) :=
  match toast st with
  | Some (ToastCompleted successCount failCount) => Some (successCount, failCount)
  | _ => None
  end.

Definition initialState (files : list File) : AppState :=
  {| files := files; processedData := []; isLoading := false;
     retryingIndex := None; previewDocumentType := None; toast := None |}.

(** A comparator of the shape [key a - key b], and the order it sorts by. *)
Definition keyDifference {A} (key : A → JS.number) (a b : A) : JS.number :=
  JS.sub (key a) (key b).

Definition keyLe {A} (key : A → JS.number) (a b : A) : Prop :=
  JS.leb (key a) (key b) = true.

(** ** A sample session *)

Definition sampleFiles : list File :=
  [ {| name := "scan1.pdf"; content := "W" |};
    {| name := "scan2.pdf"; content := "S" |};
    {| name := "scan3.pdf"; content := "?" |} ].

(** A service that reads a work order dated 20 January 2024 (DD-MM-YY) in
    the first file, a supply request dated 15 January 2024 (MM/DD/YY) in the
    second, and does not recognise anything else. *)
Definition sampleService : Service :=
  {| fileToBase64 := λ f, Ok (content f);
     classifyDocument := λ b,
       if String.eqb b "W" then Known workOrder
       else if String.eqb b "S" then Known supplyRequest
       else unknown;
     extractWorkOrderDataFromPdf := λ _,
       Ok {| ExtractedWorkOrderData.orden := "FOL123";
             ExtractedWorkOrderData.serie := "3353PA50032";
             ExtractedWorkOrderData.fechaRegistro := "20-01-24";
             ExtractedWorkOrderData.categoria := "CORRECTIVO";
             ExtractedWorkOrderData.descripcion := "Cambio de fusor";
             ExtractedWorkOrderData.fechaCierre := "21-01-24" |};
     extractSupplyDataFromPdf := λ _,
       Ok {| ExtractedSupplyData.orden := "";
             ExtractedSupplyData.serie := "3353PA50040";
             ExtractedSupplyData.fechaRegistro := "01/15/24";
             ExtractedSupplyData.contadorBN := "1200";
             ExtractedSupplyData.fechaEntrega := "01/16/24" |};
     extractUninstallationDataFromPdf := λ _, Throw "Unexpected end of JSON input";
     extractInstallationDataFromPdf := λ _, Throw "" |}.

Definition sampleWorld : nat → Service := λ _, sampleService.

(** A service that reads, in every file, a work order whose number is the
    very text of the failure marker. *)
Definition markerService : Service :=
  {| fileToBase64 := λ f, Ok (content f);
     classifyDocument := λ _, Known workOrder;
     extractWorkOrderDataFromPdf := λ _,
       Ok {| ExtractedWorkOrderData.orden := "Fallo de Procesamiento";
             ExtractedWorkOrderData.serie := "3353PA50032";
             ExtractedWorkOrderData.fechaRegistro := "20-01-24";
             ExtractedWorkOrderData.categoria := "CORRECTIVO";
             ExtractedWorkOrderData.descripcion := "Cambio de fusor";
             ExtractedWorkOrderData.fechaCierre := "21-01-24" |};
     extractSupplyDataFromPdf := λ _, Throw "";
     extractUninstallationDataFromPdf := λ _, Throw "";
     extractInstallationDataFromPdf := λ _, Throw "" |}.

(** A service that recognises nothing. *)
Definition unknownService : Service :=
  {| fileToBase64 := λ f, Ok (content f);
     classifyDocument := λ _, unknown;
     extractWorkOrderDataFromPdf := λ _, Throw "";
     extractSupplyDataFromPdf := λ _, Throw "";
     extractUninstallationDataFromPdf := λ _, Throw "";
     extractInstallationDataFromPdf := λ _, Throw "" |}.

Definition scan1 : File := {| name := "scan1.pdf"; content := "W" |}.

Definition scan3 : File := {| name := "scan3.pdf"; content := "?" |}.

(** A service that reads, in every file, a work order on which no opening
    date is found. *)
Definition undatedService : Service :=
  {| fileToBase64 := λ f, Ok (content f);
     classifyDocument := λ _, Known workOrder;
     extractWorkOrderDataFromPdf := λ _,
       Ok {| ExtractedWorkOrderData.orden := "FOL123";
             ExtractedWorkOrderData.serie := "3353PA50032";
             ExtractedWorkOrderData.fechaRegistro := "";
             ExtractedWorkOrderData.categoria := "CORRECTIVO";
             ExtractedWorkOrderData.descripcion := "Cambio de fusor";
             ExtractedWorkOrderData.fechaCierre := "" |};
     extractSupplyDataFromPdf := λ _, Throw "";
     extractUninstallationDataFromPdf := λ _, Throw "";
     extractInstallationDataFromPdf := λ _, Throw "" |}.

(** A service that reads a supply request in every file. *)
Definition supplyService : Service :=
  {| fileToBase64 := λ f, Ok (content f);
     classifyDocument := λ _, Known supplyRequest;
     extractWorkOrderDataFromPdf := λ _, Throw "";
     extractSupplyDataFromPdf := λ _,
       Ok {| ExtractedSupplyData.orden := "FOL200";
             ExtractedSupplyData.serie := "3353PA50040";
             ExtractedSupplyData.fechaRegistro := "01/15/24";
             ExtractedSupplyData.contadorBN := "1200";
             ExtractedSupplyData.fechaEntrega := "01/16/24" |};
     extractUninstallationDataFromPdf := λ _, Throw "";
     extractInstallationDataFromPdf := λ _, Throw "" |}.

(** A batch in which the first file is not recognised and the second is
    read as an undated work order. *)
Definition staleWorld : nat → Service :=
  λ i, match i with O => unknownService | _ => undatedService end.

(* ===================================================================== *)
(** * Part I, continued: the rest of the application                       *)
(* ===================================================================== *)

(** ** File selection: [handleDrop], [handleFileChange] (App.tsx, lines 85-110) *)

(** A browser [File] with its MIME [type]. *)
Record Upload : Type := { upload : File; mimeType : string }.

Inductive UploadToast : Type :=
| ToastSomeIgnored                (* "Solo se aceptan archivos PDF. ..." *)
| ToastLoaded (count : nat).      (* "<count> archivo(s) cargado(s) exitosamente" *)

(** [file.type === 'application/pdf'] *)
Definition isPdf (u : Upload) : bool := bool_decide (mimeType u = "application/pdf").

(** The toast a selection shows replaces the one on screen; it is returned
    beside the state, whose [toast] field holds the toasts of the batch
    only and is therefore emptied. *)
Definition handleDrop (dataTransferFiles : list Upload) (st : AppState)
    : AppState * UploadToast :=
  let droppedFiles := List.filter isPdf dataTransferFiles in
  let shown :=
    if negb (length droppedFiles =? length dataTransferFiles)%nat then ToastSomeIgnored
    else ToastLoaded (length droppedFiles) in
  ({| files := map upload droppedFiles; processedData := [];
      isLoading := isLoading st; retryingIndex := retryingIndex st;
      previewDocumentType := previewDocumentType st; toast := None |},
   shown).

(** [event.target.files] may be null: nothing happens then. *)
Definition handleFileChange (targetFiles : option (list Upload)) (st : AppState)
    : AppState * option UploadToast :=
  match targetFiles with
  | None => (st, None)
  | Some eventFiles =>
      let selectedFiles := List.filter isPdf eventFiles in
      let shown :=
        if negb (length selectedFiles =? length eventFiles)%nat then ToastSomeIgnored
        else ToastLoaded (length selectedFiles) in
      ({| files := map upload selectedFiles; processedData := [];
          isLoading := isLoading st; retryingIndex := retryingIndex st;
          previewDocumentType := previewDocumentType st; toast := None |},
       Some shown)
  end.

(** ** The preview modal (PreviewModal component) *)


(** [items.join(sep)]: [undefined] items read as the empty string. *)
Fixpoint join (sep : string) (items : list (option string)) : string :=
  match items with
  | [] => ""
  | [x] => default "" x
  | x :: rest => default "" x +:+ sep +:+ join sep rest
  end.

Definition TAB : string := String "009"%char "".
Definition NEWLINE : string := String "010"%char "".

(** The text [handleCopyToClipboard] writes to the clipboard, [None] when
    the [switch] takes its [default] branch and returns. *)
Definition handleCopyToClipboard (documentType : option DocumentType) (data : list Doc)
    : option string :=
  let rows : option (list (option string)) :=
    match documentType with
    | Some workOrder =>
        Some (map (λ d : Doc,
                Some (join TAB [d !! "orden"; d !! "archivo"; d !! "serie";
                                d !! "fechaRegistro"; d !! "categoria";
                                d !! "descripcion"; d !! "fechaCierre"]))
              (List.filter (hasType workOrder) data))
    | Some supplyRequest =>
        Some (map (λ d : Doc,
                Some (join TAB [d !! "orden"; d !! "archivo"; d !! "serie";
                                d !! "fechaRegistro"; d !! "contador";
                                d !! "fechaEntrega"]))
              (List.filter (hasType supplyRequest) data))
    | Some uninstallation =>
        Some (map (λ d : Doc,
                Some (join TAB [d !! "orden"; d !! "archivo"; d !! "serie";
                                d !! "fecha"; d !! "contadorBN"; d !! "contadorColor";
                                d !! "contadorEscaner"; d !! "link"; d !! "comentarios"]))
              (List.filter (hasType uninstallation) data))
    | Some installation =>
        Some (map (λ d : Doc,
                Some (join TAB [d !! "orden"; d !! "archivo"; d !! "serie";
                                d !! "fecha"; d !! "contadorBN"; d !! "link";
                                d !! "comentarios"]))
              (List.filter (hasType installation) data))
    | None => None
    end in
  match rows with
  | Some rows => Some (join NEWLINE rows)
  | None => None
  end.

(** The columns of a copied row, per type. *)
Definition clipboardColumns (t : DocumentType) : list string :=
  match t with
  | workOrder =>
      ["orden"; "archivo"; "serie"; "fechaRegistro"; "categoria"; "descripcion";
       "fechaCierre"]
  | supplyRequest =>
      ["orden"; "archivo"; "serie"; "fechaRegistro"; "contador"; "fechaEntrega"]
  | uninstallation =>
      ["orden"; "archivo"; "serie"; "fecha"; "contadorBN"; "contadorColor";
       "contadorEscaner"; "link"; "comentarios"]
  | installation =>
      ["orden"; "archivo"; "serie"; "fecha"; "contadorBN"; "link"; "comentarios"]
  end.

(** ** The result tables (App.tsx, lines 576-580) *)

(** [processedData.filter(d => d.type === t && d.orden !== 'Fallo de Procesamiento')] *)
Definition tableOf (t : DocumentType) (processedData : list Doc) : list Doc :=
  List.filter (λ d, hasType t d && notFailed d) processedData.

(** [processedData.filter(d => d.orden === 'Fallo de Procesamiento')] *)
Definition failedDocs (processedData : list Doc) : list Doc :=
  List.filter (λ d : Doc, bool_decide (d !! "orden" = Some failureMarker)) processedData.

(** ** A retry and the array it updates (App.tsx, lines 245-350) *)

(** [a[index] = v] on a copy of an array without holes: in place when the
    index exists; beyond the end the array is extended, and the slots
    between its old end and [index] are holes ([None]). *)
Definition arrayAssign {A} (index : nat) (v : A) (a : list A) : list (option A) :=
  if (index <? length a)%nat then Some <$> <[index := v]> a
  else (Some <$> a) ++ replicate (index - length a) None ++ [Some v].

(** [handleRetryFile] with the two arrays it works on kept apart. The
    callback was created by a render that saw [captured]: the row
    [processedData[index]] and the [files] it searches are those of its
    closure (lines 247-248). The service is awaited, and the state update
    is an updater, applied to the array [prevData] that is current when it
    runs (lines 332-346): the result is what the updater makes of
    [prevData], or [prevData] itself where the handler sets nothing. The
    spread of a missing [updatedData[index]] is the empty object. *)
Definition handleRetryFileAt (svc : Service) (captured : AppState) (index : nat)
    (prevData : list Doc) : RetryOutcome * list (option Doc) :=
  match processedData captured !! index with
  | None => (RetryThrew, Some <$> prevData)
  | Some docToRetry =>
      match findOriginalFile (files captured) docToRetry with
      | None => (RetryNoFile, Some <$> prevData)
      | Some originalFile =>
          match tryRetryFile svc originalFile with
          | Ok newData => (RetryReplaced, arrayAssign index newData prevData)
          | Throw message =>
              let errorMessage := orElse message "El intento de re-procesar falló." in
              let failedDoc := <["error" := errorMessage]> (default ∅ (prevData !! index)) in
              (RetryFailed, arrayAssign index failedDoc prevData)
          end
      end
  end.

(** Every document has one of the four types. *)
Definition typesKnown (data : list Doc) : Prop :=
  ∀ d, d ∈ data → ∃ t, d !! "type" = Some (typeName t).

(** The document names one of the files. *)
Definition fileSelected (files : list File) (d : Doc) : Prop :=
  ∃ f, f ∈ files ∧ d !! "originalFileName" = Some (name f).

(** ** The dashboard (src/components/Dashboard.tsx, lines 17-62) *)

Module Dashboard.
Record Stats : Type :=
  { total : nat; successful : nat;
    workOrders : nat; supplyRequests : nat; uninstallations : nat; installations : nat;
    failed : nat;
    categories : list (string * nat);
    maxCategoryCount : nat }.
End Dashboard.

Section DashboardStats.

(** [String.prototype.trim] and [toUpperCase], and the order in which
    [Object.entries] lists the keys of the counting object, are the
    engine's. *)
Variables (trim toUpperCase : string → string).
Variable entries : gmap string nat → list (string * nat).

(** [((doc.categoria || '').trim() || 'Sin Categoría').toUpperCase()] *)
Definition categoryOf (doc : Doc) : string :=
  let trimmed := trim (default "" (doc !! "categoria")) in
  toUpperCase (if String.eqb trimmed "" then "Sin Categoría" else trimmed).

(** The [reduce] over the work orders: [acc[category] = (acc[category] || 0) + 1]. *)
Definition countCategories (workOrders : list Doc) : gmap string nat :=
  foldl (λ (acc : gmap string nat) (doc : Doc),
           <[categoryOf doc := (default 0 (acc !! categoryOf doc) + 1)%nat]> acc)
        ∅ workOrders.

(** The statistics of the [useMemo]; the percentages and the gradient
    built from them are floating-point presentation values and are left
    out. *)
Definition stats (data : list Doc) : Dashboard.Stats :=
  let successfulDocs := List.filter notFailed data in
  let workOrders := List.filter (hasType workOrder) successfulDocs in
  let supplyRequests := List.filter (hasType supplyRequest) successfulDocs in
  let uninstallations := List.filter (hasType uninstallation) successfulDocs in
  let installations := List.filter (hasType installation) successfulDocs in
  let failedDocs :=
    List.filter (λ d : Doc, bool_decide (d !! "orden" = Some failureMarker)) data in
  let categories := countCategories workOrders in
  let sortedCategories :=
    JS.sort (λ x y : string * nat, JS.sub (JS.Fin (Z.of_nat y.2)) (JS.Fin (Z.of_nat x.2)))
            (entries categories) in
  let maxCategoryCount :=
    match sortedCategories with
    | e :: _ => e.2
    | [] => O
    end in
  {| Dashboard.total := length data;
     Dashboard.successful := length successfulDocs;
     Dashboard.workOrders := length workOrders;
     Dashboard.supplyRequests := length supplyRequests;
     Dashboard.uninstallations := length uninstallations;
     Dashboard.installations := length installations;
     Dashboard.failed := length failedDocs;
     Dashboard.categories := sortedCategories;
     Dashboard.maxCategoryCount := maxCategoryCount |}.

End DashboardStats.

(** ** The spreadsheet export: [exportToExcel] (utils/excelUtils) *)

(** The calls made to the XLSX library, in order. The worksheet of a
    [json_to_sheet] is the one the calls after it work on, up to the
    [book_append_sheet] that adds it to the workbook. Setting the column
    widths and [applyStylesAndHyperlinks], which works on the worksheet
    through the library, are listed with them. *)
Inductive XlsxCall : Type :=
| book_new
| json_to_sheet (worksheetData : list (list (string * option string)))
| set_cols (wch : list nat)
| applyStylesAndHyperlinks (data : list Doc) (baseUrl : string)
| book_append_sheet (name : string)
| writeFile (filename : string).

(** One [if (docs.length > 0) { ... }] block: the calls it makes, and how
    its own code ends after them. [oneDriveUrls] is [None] when the caller
    passed no such property: reading a property of it then throws a
    TypeError (whose text is the engine's), after the worksheet was built
    and before it is styled and appended. *)
Definition sheetBlock (docs : list Doc) (columns : list (string * string))
    (wch : list nat) (oneDriveUrls : option (DocumentType → string))
    (t : DocumentType) (sheetName : string) : list XlsxCall * Result () :=
  if (0 <? length docs)%nat then
    let worksheetData :=
      map (λ doc : Doc, map (λ c : string * string, (c.1, doc !! c.2)) columns) docs in
    match oneDriveUrls with
    | None => ([json_to_sheet worksheetData; set_cols wch], Throw "TypeError")
    | Some urls =>
        ([json_to_sheet worksheetData; set_cols wch;
          applyStylesAndHyperlinks docs (urls t); book_append_sheet sheetName], Ok ())
    end
  else ([], Ok ()).

(** Sequencing: what follows is reached only if what came before did not
    throw. *)
Definition andThen (a b : list XlsxCall * Result ()) : list XlsxCall * Result () :=
  match a.2 with
  | Ok _ => ((a.1 ++ b.1)%list, b.2)
  | Throw m => (a.1, Throw m)
  end.

(** The calls [exportToExcel] makes to the library, in order, and how its
    own code ends once they have all returned. *)
Definition exportToExcel_calls (data : ExportData)
    (oneDriveUrls : option (DocumentType → string)) : list XlsxCall * Result () :=
  andThen ([book_new], Ok ())
 (andThen (sheetBlock (workOrders data)
             [("ORDEN", "orden"); ("ARCHIVOS", "archivo"); ("SERIE", "serie");
              ("FECHA REGISTRO", "fechaRegistro"); ("CATEGORIA", "categoria");
              ("DESCRIPCION", "descripcion"); ("FECHA CIERRE", "fechaCierre")]
             [15; 25; 20; 20; 20; 50; 20]%nat
             oneDriveUrls workOrder "Ã“rdenes de Trabajo")
 (andThen (sheetBlock (supplyRequests data)
             [("ORDEN", "orden"); ("ARCHIVOS", "archivo"); ("SERIE", "serie");
              ("FECHA REGISTRO", "fechaRegistro"); ("CONTADOR", "contador");
              ("FECHA ENTREGA", "fechaEntrega")]
             [15; 40; 20; 20; 15; 20]%nat
             oneDriveUrls supplyRequest "Pedidos de Suministro")
 (andThen (sheetBlock (uninstallations data)
             [("FOLIO", "orden"); ("ARCHIVOS", "archivo"); ("SERIE", "serie");
              ("FECHA", "fecha"); ("CONTADOR B/N", "contadorBN");
              ("CONTADOR COLOR", "contadorColor"); ("CONTADOR ESCANER", "contadorEscaner");
              ("LINK", "link"); ("COMENTARIOS", "comentarios")]
             [15; 25; 20; 20; 15; 15; 15; 30; 50]%nat
             oneDriveUrls uninstallation "Desinstalaciones")
 (andThen (sheetBlock (installations data)
             [("FOLIO", "orden"); ("ARCHIVOS", "archivo"); ("SERIE", "serie");
              ("FECHA", "fecha"); ("CONTADOR B/N", "contadorBN"); ("LINK", "link");
              ("COMENTARIOS", "comentarios")]
             [15; 25; 20; 20; 15; 30; 50]%nat
             oneDriveUrls installation "Instalaciones")
          ([writeFile "Documentos_Procesados.xlsx"], Ok ()))))).

(** The XLSX library is not part of the repository: whether a call returns
    or throws is the library's, and may depend on the calls that returned
    before it (writing a workbook fails on a cell of more than 32767
    characters). *)
Definition Xlsx : Type := list XlsxCall → XlsxCall → Result ().

(** Making calls in order, after the calls [done]: the calls that returned,
    and the error of the first that threw. *)
Fixpoint perform (xlsx : Xlsx) (done calls : list XlsxCall) : list XlsxCall * Result () :=
  match calls with
  | [] => (done, Ok ())
  | c :: rest =>
      match xlsx done c with
      | Ok _ => perform xlsx (done ++ [c]) rest
      | Throw message => (done, Throw message)
      end
  end.

(** [exportToExcel]: the calls that returned, and how the export ends: with
    the error of the library call that threw, or as its own code ends. *)
Definition exportToExcel (xlsx : Xlsx) (data : ExportData)
    (oneDriveUrls : option (DocumentType → string)) : list XlsxCall * Result () :=
  let attempted := exportToExcel_calls data oneDriveUrls in
  match perform xlsx [] attempted.1 with
  | (done, Ok _) => (done, attempted.2)
  | (done, Throw message) => (done, Throw message)
  end.

(** What [handleExportAll] makes of the XLSX library: it calls
    [exportToExcel({ ...dataToExport })], an argument without
    [oneDriveUrls]; [None] when it does not call it. *)
Definition exportAllCalls (xlsx : Xlsx) (st : AppState)
    : option (list XlsxCall * Result ()) :=
  match handleExportAll st with
  | Some dataToExport => Some (exportToExcel xlsx dataToExport None)
  | None => None
  end.

(** ** The classifier: [classifyDocument] (src/services/geminiService.ts, lines 19-37) *)

Module Gemini.

(** [generateContent] stands for the request and the reading of
    [response.text]: the text, or what was thrown. *)
Definition classifyDocument (trim : string → string)
    (generateContent : string → Result string) (base64Pdf : string) : Classification :=
  match generateContent base64Pdf with
  | Ok text =>
      let classification := trim text in
      if String.eqb classification "workOrder" then Known workOrder
      else if String.eqb classification "supplyRequest" then Known supplyRequest
      else if String.eqb classification "uninstallation" then Known uninstallation
      else if String.eqb classification "installation" then Known installation
      else unknown
  | Throw _ => unknown
  end.

End Gemini.

(** A service whose classifier is the one of geminiService.ts. *)
Definition withGeminiClassifier (trim : string → string)
    (generateContent : string → Result string) (svc : Service) : Service :=
  {| fileToBase64 := fileToBase64 svc;
     classifyDocument := Gemini.classifyDocument trim generateContent;
     extractWorkOrderDataFromPdf := extractWorkOrderDataFromPdf svc;
     extractSupplyDataFromPdf := extractSupplyDataFromPdf svc;
     extractUninstallationDataFromPdf := extractUninstallationDataFromPdf svc;
     extractInstallationDataFromPdf := extractInstallationDataFromPdf svc |}.

(** ** Vocabulary of the further statements *)

(** [a] is an earlier day than [b]. *)
Definition earlier (a b : Z * Z * Z) : Prop :=
  (a.1.1 < b.1.1 ∨ (a.1.1 = b.1.1 ∧ (a.1.2 < b.1.2 ∨ (a.1.2 = b.1.2 ∧ a.2 < b.2))))%Z.

(** A string without the character [c]. *)
Fixpoint lacks (c : ascii) (s : string) : bool :=
  match s with
  | EmptyString => true
  | String x s' => negb (Ascii.eqb x c) && lacks c s'
  end.

#[global] Instance DocumentType_eq_dec : EqDecision DocumentType.
Proof. solve_decision. Defined.

(** The names of the sheets appended to the workbook, in order. *)
Definition appendedSheets (calls : list XlsxCall) : list string :=
  omap (λ c, match c with book_append_sheet name => Some name | _ => None end) calls.

(** The files written. *)
Definition writtenFiles (calls : list XlsxCall) : list string :=
  omap (λ c, match c with writeFile filename => Some filename | _ => None end) calls.

(** The number of rows of each worksheet built, in order. *)
Definition sheetRows (calls : list XlsxCall) : list nat :=
  omap (λ c, match c with json_to_sheet rows => Some (length rows) | _ => None end) calls.

(** A state reached by a drop and a batch. *)
Definition sampleSession : AppState :=
  handleProcessFiles Date.StrictCalendar sampleWorld
    (handleDrop
       [ {| upload := scan1; mimeType := "application/pdf" |};
         {| upload := {| name := "notes.txt"; content := "n" |}; mimeType := "text/plain" |};
         {| upload := scan3; mimeType := "application/pdf" |} ]
       (initialState [])).1.

(** A sample selection and a sample request for the witnesses. *)
Definition sampleUploads : list Upload :=
  [ {| upload := scan1; mimeType := "application/pdf" |};
    {| upload := {| name := "notes.txt"; content := "n" |}; mimeType := "text/plain" |};
    {| upload := scan3; mimeType := "application/pdf" |} ].

Definition brokenRequest : string → Result string := λ _, Throw "API key not valid".

(** A library none of whose calls throws, and one that cannot write the
    workbook. *)
Definition sampleXlsx : Xlsx := λ _ _, Ok ().

Definition readOnlyXlsx : Xlsx :=
  λ _ c, match c with writeFile _ => Throw "cannot save file" | _ => Ok () end.

(* ===================================================================== *)
(** * Part II: properties                                                  *)
(* ===================================================================== *)

(** ** The sortable-date parser *)

Section DateParser.

Variable h : Date.Host.

Lemma isDigit_not_sep (c : ascii) :
  JS.isDigit c = true → Ascii.eqb c "/" = false ∧ Ascii.eqb c "-" = false.
Proof.
  intros Hc; split; apply Ascii.eqb_neq; intros ->; discriminate Hc.
Qed.

Lemma num4_century (e f : ascii) : Date.num4 "2" "0" e f = (2000 + Date.num2 e f)%Z.
Proof. unfold Date.num4, Date.num2. change (JS.digitValue "2") with 2%Z. change (JS.digitValue "0") with 0%Z. lia. Qed.

Lemma timeOf_accepted (y m d : Z) :
  Date.timeOf h y m d =
    if Date.accepts h y m d then JS.Fin (Date.utc y m d) else JS.NaN.
Proof. reflexivity. Qed.

(** The parser in closed form: the date the string writes, put to the
    host's [Date]. *)
Lemma parseSortableDate_calendarDate (s : string) :
  parseSortableDate h s =
    match calendarDate s with
    | Some c =>
        if Date.accepts h c.1.1 c.1.2 c.2 then JS.Fin (Date.utc c.1.1 c.1.2 c.2)
        else JS.Infinity
    | None => JS.Infinity
    end.
Proof.
  unfold parseSortableDate, calendarDate.
  destruct s as [|a [|b [|s1 [|c [|d [|s2 [|e [|f [|g s]]]]]]]]]; try reflexivity.
  cbn [String.eqb].
  unfold tryMMDDYY, tryDDMMYY, test_dd_dd_dd.
  cbn [list_ascii_of_string forallb].
  destruct (JS.isDigit a) eqn:Ha; [|reflexivity].
  destruct (JS.isDigit b) eqn:Hb; [|reflexivity].
  destruct (JS.isDigit c) eqn:Hc; [|by rewrite !andb_false_r].
  destruct (JS.isDigit d) eqn:Hd; [|by rewrite !andb_false_r].
  destruct (JS.isDigit e) eqn:He; [|by rewrite !andb_false_r].
  destruct (JS.isDigit f) eqn:Hf; [|by rewrite !andb_false_r].
  destruct (isDigit_not_sep a Ha) as [Ha1 Ha2], (isDigit_not_sep b Hb) as [Hb1 Hb2],
    (isDigit_not_sep c Hc) as [Hc1 Hc2], (isDigit_not_sep d Hd) as [Hd1 Hd2],
    (isDigit_not_sep e He) as [He1 He2], (isDigit_not_sep f Hf) as [Hf1 Hf2].
  cbn [andb].
  destruct (Ascii.eqb s1 "/") eqn:E1.
  - apply Ascii.eqb_eq in E1; subst s1.
    change (Ascii.eqb "/" "-") with false. cbn [andb].
    destruct (Ascii.eqb s2 "/") eqn:E2; [|reflexivity].
    apply Ascii.eqb_eq in E2; subst s2.
    unfold JS.split. cbn [JS.split_from].
    rewrite Ha1, Hb1, Hc1, Hd1, He1, Hf1.
    change (Ascii.eqb "/" "/") with true. cbn.
    unfold Date.getTime_of_new. cbv [String.append]. cbn [list_ascii_of_string forallb].
    rewrite Ha, Hb, Hc, Hd, He, Hf.
    change (JS.isDigit "2") with true; change (JS.isDigit "0") with true.
    change (Ascii.eqb "-" "-") with true. cbn [andb].
    rewrite num4_century, timeOf_accepted.
    by destruct (Date.accepts h _ _ _).
  - cbn [andb].
    destruct (Ascii.eqb s1 "-") eqn:E1'; [|reflexivity].
    apply Ascii.eqb_eq in E1'; subst s1. cbn [andb].
    destruct (Ascii.eqb s2 "-") eqn:E2; [|reflexivity].
    apply Ascii.eqb_eq in E2; subst s2.
    unfold JS.split. cbn [JS.split_from].
    rewrite Ha2, Hb2, Hc2, Hd2, He2, Hf2.
    change (Ascii.eqb "-" "-") with true. cbn.
    unfold Date.getTime_of_new. cbv [String.append]. cbn [list_ascii_of_string forallb].
    rewrite Ha, Hb, Hc, Hd, He, Hf.
    change (JS.isDigit "2") with true; change (JS.isDigit "0") with true.
    change (Ascii.eqb "-" "-") with true. cbn [andb].
    rewrite num4_century, timeOf_accepted.
    by destruct (Date.accepts h _ _ _).
Qed.

End DateParser.

Lemma unparseable_Infinity (h : Date.Host) (s : string) :
  unparseable s → parseSortableDate h s = JS.Infinity.
Proof.
  unfold parseSortableDate, tryMMDDYY, tryDDMMYY.
  intros [-> | [-> ->]]; [done|]. by destruct (String.eqb s "").
Qed.

(** A sort key is a timestamp or positive infinity, never NaN. *)
Lemma parseSortableDate_range (h : Date.Host) (s : string) :
  parseSortableDate h s = JS.Infinity ∨ ∃ z, parseSortableDate h s = JS.Fin z.
Proof. rewrite parseSortableDate_calendarDate. repeat case_match; eauto. Qed.

(** ** The calendar behind the time values *)

Section Calendar.

Local Open Scope Z_scope.

Lemma DayFromYear_next (y : Z) :
  Date.DayFromYear (y + 1) =
    Date.DayFromYear y + (if Date.InLeapYear y then 366 else 365).
Proof.
  unfold Date.DayFromYear, Date.InLeapYear.
  destruct (Z.eqb_spec (y mod 4) 0), (Z.eqb_spec (y mod 100) 0),
    (Z.eqb_spec (y mod 400) 0); cbn; Z.div_mod_to_equations; lia.
Qed.

Lemma DayFromYear_mono (y y' : Z) : y ≤ y' → Date.DayFromYear y ≤ Date.DayFromYear y'.
Proof. unfold Date.DayFromYear. intros. Z.div_mod_to_equations. lia. Qed.

Lemma DaysInMonth_bounds (y m : Z) : 28 ≤ Date.DaysInMonth y m ≤ 31.
Proof. unfold Date.DaysInMonth. repeat case_match; lia. Qed.

Lemma foldr_add_snoc (l : list Z) (a : Z) :
  foldr Z.add 0 (l ++ [a]) = foldr Z.add 0 l + a.
Proof. induction l as [|x l IH]; cbn [foldr app]; lia. Qed.

(** The days of the year before a month, as a sum of month lengths. *)
Lemma daysBeforeMonth_next (y m : Z) :
  1 ≤ m ≤ 12 →
  Date.daysBeforeMonth y (m + 1) = Date.daysBeforeMonth y m + Date.DaysInMonth y m.
Proof.
  intros Hm. unfold Date.daysBeforeMonth.
  replace (m + 1 - 1) with (Z.succ (m - 1)) by lia.
  rewrite Z2Nat.inj_succ by lia.
  rewrite seq_S, !map_app. cbn [map]. rewrite foldr_add_snoc.
  do 2 f_equal. lia.
Qed.

Lemma daysBeforeMonth_first (y : Z) : Date.daysBeforeMonth y 1 = 0.
Proof. reflexivity. Qed.

Lemma daysBeforeMonth_mono (y m m' : Z) :
  1 ≤ m → m < m' → m' ≤ 13 →
  Date.daysBeforeMonth y m + Date.DaysInMonth y m ≤ Date.daysBeforeMonth y m'.
Proof.
  intros H1 Hlt H13.
  assert (∃ n : nat, m' = m + 1 + Z.of_nat n) as [n ->].
  { exists (Z.to_nat (m' - m - 1)). lia. }
  induction n as [|n IH].
  - rewrite Z.add_0_r, daysBeforeMonth_next by lia. lia.
  - replace (m + 1 + Z.of_nat (S n)) with ((m + 1 + Z.of_nat n) + 1) by lia.
    rewrite daysBeforeMonth_next by lia.
    pose proof (DaysInMonth_bounds y (m + 1 + Z.of_nat n)).
    assert (Date.daysBeforeMonth y m + Date.DaysInMonth y m
            ≤ Date.daysBeforeMonth y (m + 1 + Z.of_nat n)) by (apply IH; lia).
    lia.
Qed.

Lemma daysBeforeMonth_nonneg (y m : Z) : 1 ≤ m ≤ 12 → 0 ≤ Date.daysBeforeMonth y m.
Proof.
  intros Hm. destruct (decide (m = 1)) as [->|Hne]; [done|].
  pose proof (daysBeforeMonth_mono y 1 m). pose proof (DaysInMonth_bounds y 1).
  rewrite daysBeforeMonth_first in *. lia.
Qed.

Lemma daysBeforeMonth_year (y : Z) :
  Date.daysBeforeMonth y 13 = if Date.InLeapYear y then 366 else 365.
Proof.
  unfold Date.daysBeforeMonth, Date.DaysInMonth. cbn -[Date.InLeapYear].
  by destruct (Date.InLeapYear y).
Qed.

Lemma validDate_spec (c : Z * Z * Z) :
  validDate c = true →
  1 ≤ c.1.2 ≤ 12 ∧ 1 ≤ c.2 ≤ Date.DaysInMonth c.1.1 c.1.2.
Proof.
  unfold validDate, Date.accepts. rewrite !andb_true_iff, !Z.leb_le. lia.
Qed.

(** The time value grows with the calendar date. *)
Lemma utc_strictly_monotone (a b : Z * Z * Z) :
  validDate a = true → validDate b = true → earlier a b →
  Date.utc a.1.1 a.1.2 a.2 < Date.utc b.1.1 b.1.2 b.2.
Proof.
  destruct a as [[y m] d], b as [[y' m'] d']. cbn [fst snd].
  intros Ha%validDate_spec Hb%validDate_spec He. cbn [fst snd] in *.
  unfold earlier in He. cbn [fst snd] in He. unfold Date.utc, Date.msPerDay.
  pose proof (daysBeforeMonth_nonneg y m ltac:(lia)).
  pose proof (daysBeforeMonth_nonneg y' m' ltac:(lia)).
  assert (Date.DayFromYear y + Date.daysBeforeMonth y m + (d - 1)
          < Date.DayFromYear y' + Date.daysBeforeMonth y' m' + (d' - 1)); [|lia].
  destruct He as [Hy|[<- [Hm|[<- Hd]]]].
  - pose proof (daysBeforeMonth_mono y m 13 ltac:(lia) ltac:(lia) ltac:(lia)).
    rewrite daysBeforeMonth_year in *.
    pose proof (DayFromYear_next y). pose proof (DayFromYear_mono (y + 1) y' ltac:(lia)).
    lia.
  - pose proof (daysBeforeMonth_mono y m m' ltac:(lia) ltac:(lia) ltac:(lia)). lia.
  - lia.
Qed.

Lemma earlier_trichotomy (a b : Z * Z * Z) : earlier a b ∨ a = b ∨ earlier b a.
Proof.
  destruct a as [[y m] d], b as [[y' m'] d']. unfold earlier. cbn.
  destruct (Z.lt_trichotomy y y') as [?|[->|?]]; [lia| |lia].
  destruct (Z.lt_trichotomy m m') as [?|[->|?]]; [lia| |lia].
  destruct (Z.lt_trichotomy d d') as [?|[->|?]]; [lia| |lia].
  by right; left.
Qed.

End Calendar.

Lemma validDate_accepts (h : Date.Host) (c : Z * Z * Z) :
  validDate c = true → Date.accepts h c.1.1 c.1.2 c.2 = true.
Proof.
  unfold validDate, Date.accepts. destruct h; [done|].
  rewrite !andb_true_iff. tauto.
Qed.

(** ** [Array.prototype.sort] under a comparator [key a - key b] *)

Section SortByKey.

Context {A : Type} (key : A → JS.number).
Hypothesis key_range : ∀ x, key x = JS.Infinity ∨ ∃ z, key x = JS.Fin z.

Local Abbreviation keyDifference := (keyDifference key).
Local Abbreviation keyLe := (keyLe key).

Lemma SortCompare_Gt (x y : A) :
  JS.SortCompare keyDifference x y = Gt ↔ JS.ltb (key y) (key x) = true.
Proof.
  unfold JS.SortCompare, keyDifference.
  destruct (key_range x) as [-> | [zx ->]], (key_range y) as [-> | [zy ->]]; cbn;
    try (split; congruence).
  rewrite Z.compare_gt_iff, Z.ltb_lt. lia.
Qed.

Lemma SortCompare_not_Gt (x y : A) :
  JS.SortCompare keyDifference x y ≠ Gt ↔ keyLe x y.
Proof.
  rewrite SortCompare_Gt. unfold keyLe.
  destruct (key_range x) as [-> | [zx ->]], (key_range y) as [-> | [zy ->]]; cbn;
    try (split; congruence).
  rewrite Z.ltb_lt, Z.leb_le. lia.
Qed.

(** The comparator is consistent: it is the three-way comparison of a
    total preorder (ties included), which is what [sort] asks for. *)
Lemma keyLe_total (x y : A) : keyLe x y ∨ keyLe y x.
Proof.
  unfold keyLe.
  destruct (key_range x) as [-> | [zx ->]], (key_range y) as [-> | [zy ->]]; cbn; auto.
  rewrite !Z.leb_le. lia.
Qed.

Lemma keyLe_trans (x y z : A) : keyLe x y → keyLe y z → keyLe x z.
Proof.
  unfold keyLe.
  destruct (key_range x) as [-> | [zx ->]], (key_range y) as [-> | [zy ->]],
    (key_range z) as [-> | [zz ->]]; cbn; auto; try congruence.
  rewrite !Z.leb_le. lia.
Qed.

Lemma ltb_keyLe (x y : A) : JS.ltb (key y) (key x) = true → keyLe y x.
Proof.
  unfold keyLe.
  destruct (key_range x) as [-> | [zx ->]], (key_range y) as [-> | [zy ->]]; cbn; auto.
  rewrite Z.ltb_lt, Z.leb_le. lia.
Qed.

Lemma sort_insert_Permutation (x : A) (l : list A) :
  JS.sort_insert keyDifference x l ≡ₚ x :: l.
Proof.
  induction l as [|y l IH]; cbn; [done|].
  destruct (JS.SortCompare keyDifference x y); try done.
  rewrite IH. apply perm_swap.
Qed.

Lemma sort_Permutation (l : list A) : JS.sort keyDifference l ≡ₚ l.
Proof.
  induction l as [|x l IH]; cbn; [done|].
  by rewrite sort_insert_Permutation, IH.
Qed.

Lemma sort_length (l : list A) : length (JS.sort keyDifference l) = length l.
Proof. apply Permutation_length, sort_Permutation. Qed.

Lemma sort_insert_sorted (x : A) (l : list A) :
  StronglySorted keyLe l → StronglySorted keyLe (JS.sort_insert keyDifference x l).
Proof.
  induction 1 as [|y l Hl IH Hy]; cbn.
  - repeat constructor.
  - destruct (JS.SortCompare keyDifference x y) eqn:E.
    + assert (keyLe x y) as Hxy by (apply SortCompare_not_Gt; congruence).
      constructor; [by constructor|].
      constructor; [done|]. eapply Forall_impl; [exact Hy|].
      intros z Hz. by eapply keyLe_trans.
    + assert (keyLe x y) as Hxy by (apply SortCompare_not_Gt; congruence).
      constructor; [by constructor|].
      constructor; [done|]. eapply Forall_impl; [exact Hy|].
      intros z Hz. by eapply keyLe_trans.
    + constructor; [done|].
      rewrite sort_insert_Permutation. constructor; [|done].
      by apply ltb_keyLe, SortCompare_Gt.
Qed.

Lemma sort_sorted (l : list A) : StronglySorted keyLe (JS.sort keyDifference l).
Proof.
  induction l as [|x l IH]; cbn; [constructor|]. by apply sort_insert_sorted.
Qed.

(** Stability: the elements of any one key keep their order. *)
Lemma sort_insert_stable (k : JS.number) (x : A) (l : list A) :
  List.filter (λ y, bool_decide (key y = k)) (JS.sort_insert keyDifference x l) =
  List.filter (λ y, bool_decide (key y = k)) (x :: l).
Proof.
  induction l as [|y l IH]; [done|].
  cbn [JS.sort_insert].
  destruct (JS.SortCompare keyDifference x y) eqn:E; try done.
  apply SortCompare_Gt in E.
  cbn [List.filter] in *. rewrite IH.
  destruct (bool_decide_reflect (key x = k)) as [Hx|Hx],
    (bool_decide_reflect (key y = k)) as [Hy|Hy]; try done.
  exfalso. rewrite Hx, Hy in E. clear -E. by destruct k; cbn in E; try lia.
Qed.

Lemma sort_stable (k : JS.number) (l : list A) :
  List.filter (λ y, bool_decide (key y = k)) (JS.sort keyDifference l) =
  List.filter (λ y, bool_decide (key y = k)) l.
Proof.
  induction l as [|x l IH]; [done|].
  cbn [JS.sort]. rewrite sort_insert_stable. cbn [List.filter]. by rewrite IH.
Qed.

End SortByKey.

(** ** The contract of [sort] fixes its result

    Whatever algorithm an engine runs, a result that is ordered by the keys
    and keeps the documents of each key in their order is the one computed
    by [JS.sort]. *)

Section SortContract.

Context {A : Type} (key : A → JS.number).
Hypothesis key_range : ∀ x, key x = JS.Infinity ∨ ∃ z, key x = JS.Fin z.

Local Abbreviation keyLe := (keyLe key).

Lemma keyLe_antisym (x y : A) : keyLe x y → keyLe y x → key x = key y.
Proof.
  unfold keyLe.
  destruct (key_range x) as [-> | [zx ->]], (key_range y) as [-> | [zy ->]]; cbn;
    try done.
  rewrite !Z.leb_le. intros. f_equal. lia.
Qed.

Lemma sorted_head_le (x y : A) (l1 l2 : list A) :
  StronglySorted keyLe (x :: l1) →
  List.filter (λ z, bool_decide (key z = key y)) (x :: l1) =
    List.filter (λ z, bool_decide (key z = key y)) (y :: l2) →
  keyLe x y.
Proof.
  intros Hs Hf.
  assert (In y (List.filter (λ z, bool_decide (key z = key y)) (x :: l1))) as Hin.
  { rewrite Hf. cbn [List.filter]. rewrite bool_decide_eq_true_2 by done. by left. }
  apply List.filter_In in Hin as [[<- | Hin] _].
  - destruct (keyLe_total key key_range x x); done.
  - apply StronglySorted_inv in Hs as [_ Hall].
    rewrite List.Forall_forall in Hall. by apply Hall.
Qed.

Lemma sorted_stable_unique (l1 l2 : list A) :
  StronglySorted keyLe l1 → StronglySorted keyLe l2 →
  (∀ k, List.filter (λ z, bool_decide (key z = k)) l1 =
        List.filter (λ z, bool_decide (key z = k)) l2) →
  l1 = l2.
Proof.
  revert l2. induction l1 as [|x l1 IH]; intros l2 Hs1 Hs2 Hf.
  - destruct l2 as [|y l2]; [done|].
    specialize (Hf (key y)). cbn in Hf.
    by rewrite bool_decide_eq_true_2 in Hf.
  - destruct l2 as [|y l2].
    { specialize (Hf (key x)). cbn in Hf. by rewrite bool_decide_eq_true_2 in Hf. }
    assert (key x = key y) as Hk.
    { apply keyLe_antisym.
      - eapply sorted_head_le; [done|]. apply Hf.
      - eapply sorted_head_le; [done|]. symmetry. apply Hf. }
    assert (x = y) as <-.
    { specialize (Hf (key x)). cbn in Hf.
      rewrite !bool_decide_eq_true_2 in Hf by done. by injection Hf. }
    f_equal. apply IH.
    + by apply StronglySorted_inv in Hs1 as [? _].
    + by apply StronglySorted_inv in Hs2 as [? _].
    + intros k. specialize (Hf k). cbn in Hf.
      destruct (bool_decide (key x = k)); [by injection Hf|done].
Qed.

Lemma sort_contract_unique (l l' : list A) :
  StronglySorted keyLe l' →
  (∀ k, List.filter (λ z, bool_decide (key z = k)) l' =
        List.filter (λ z, bool_decide (key z = k)) l) →
  l' = JS.sort (keyDifference key) l.
Proof.
  intros Hs Hf. apply sorted_stable_unique; [done|by apply sort_sorted|].
  intros k. by rewrite Hf, sort_stable.
Qed.

End SortContract.

(** ** One file: classification, extraction, normalisation *)

Section OneFile.

Variables (svc : Service) (file : File).

Local Abbreviation wellFormed := (wellFormed (name file)).

Lemma tryProcessFile_answer :
  match answer svc file with
  | ReadError m => tryProcessFile svc file = Throw m
  | Unrecognised =>
      tryProcessFile svc file = Throw "No se pudo reconocer el tipo de documento."
  | ExtractorError _ m => tryProcessFile svc file = Throw m
  | Success e => ∃ d, tryProcessFile svc file = Ok d ∧ wellFormed e d
  end.
Proof.
  unfold answer, tryProcessFile, mbind, Result_bind.
  destruct (fileToBase64 svc file) as [b|m]; [|done].
  destruct (classifyDocument svc b) as [[]|]; [| | | |done].
  - destruct (extractWorkOrderDataFromPdf svc b); [|done].
    eexists; split; [done|]. by repeat split.
  - destruct (extractSupplyDataFromPdf svc b); [|done].
    eexists; split; [done|]. by repeat split.
  - destruct (extractUninstallationDataFromPdf svc b); [|done].
    eexists; split; [done|]. by repeat split.
  - destruct (extractInstallationDataFromPdf svc b); [|done].
    eexists; split; [done|]. by repeat split.
Qed.

(** A retry runs the same classification, extraction and normalisation as
    the batch does: same documents, and the same errors but for the wording
    of the unrecognised-type message. *)
Lemma tryRetryFile_tryProcessFile :
  tryRetryFile svc file =
    match answer svc file with
    | Unrecognised =>
        Throw "No se pudo reconocer el tipo de documento al reintentar."
    | _ => tryProcessFile svc file
    end.
Proof.
  unfold answer, tryRetryFile, tryProcessFile, mbind, Result_bind.
  destruct (fileToBase64 svc file) as [b|m]; [|done].
  destruct (classifyDocument svc b) as [[]|]; [| | | |done].
  - by destruct (extractWorkOrderDataFromPdf svc b).
  - by destruct (extractSupplyDataFromPdf svc b).
  - by destruct (extractUninstallationDataFromPdf svc b).
  - by destruct (extractInstallationDataFromPdf svc b).
Qed.

Lemma tryRetryFile_answer :
  match answer svc file with
  | ReadError m => tryRetryFile svc file = Throw m
  | Unrecognised =>
      tryRetryFile svc file =
        Throw "No se pudo reconocer el tipo de documento al reintentar."
  | ExtractorError _ m => tryRetryFile svc file = Throw m
  | Success e => ∃ d, tryRetryFile svc file = Ok d ∧ wellFormed e d
  end.
Proof.
  rewrite tryRetryFile_tryProcessFile.
  pose proof tryProcessFile_answer as H. by destruct (answer svc file).
Qed.

Lemma processFile_failure (errorMessage : string) :
  batchErrorMessage (answer svc file) = Some errorMessage →
  processFile svc file = failureRecord file errorMessage.
Proof.
  unfold processFile. pose proof tryProcessFile_answer as H.
  destruct (answer svc file); cbn; intros [= <-]; by rewrite H.
Qed.

Lemma processFile_success (e : Extracted) :
  answer svc file = Success e → wellFormed e (processFile svc file).
Proof.
  unfold processFile. pose proof tryProcessFile_answer as H.
  intros Ha. rewrite Ha in H. destruct H as (d & -> & Hd). done.
Qed.

Lemma processFile_cases :
  (∃ errorMessage, batchErrorMessage (answer svc file) = Some errorMessage ∧
                   processFile svc file = failureRecord file errorMessage) ∨
  (∃ e, answer svc file = Success e ∧ wellFormed e (processFile svc file)).
Proof.
  destruct (answer svc file) eqn:Ha.
  - left. eexists. split; [done|]. apply processFile_failure. by rewrite Ha.
  - left. eexists. split; [done|]. apply processFile_failure. by rewrite Ha.
  - left. eexists. split; [done|]. apply processFile_failure. by rewrite Ha.
  - right. eexists. split; [done|]. by apply processFile_success.
Qed.

End OneFile.

(** ** The batch loop *)

Section Batch.

Variables (h : Date.Host) (world : nat → Service).

(** The loop pushes one record per file, in input order. *)
Lemma processLoop_imap (i : nat) (files : list File) (allData : list Doc) :
  processLoop world i files allData =
    (allData ++ imap (λ k file, processFile (world (i + k)) file) files)%list.
Proof.
  revert i allData. induction files as [|file rest IH]; intros i allData; cbn.
  - by rewrite app_nil_r.
  - rewrite IH, <- app_assoc. cbn. rewrite Nat.add_0_r.
    do 2 f_equal. apply imap_ext. intros k f _. cbn. do 2 f_equal. lia.
Qed.

Lemma processLoop_length (files : list File) :
  length (processLoop world 0 files []) = length files.
Proof. rewrite processLoop_imap. cbn. apply length_imap. Qed.

Lemma processLoop_lookup (files : list File) (i : nat) :
  processLoop world 0 files [] !! i = processFile (world i) <$> files !! i.
Proof. rewrite processLoop_imap. cbn. by rewrite list_lookup_imap. Qed.

Lemma processLoop_elem (files : list File) (d : Doc) :
  d ∈ processLoop world 0 files [] →
  ∃ i file, files !! i = Some file ∧ d = processFile (world i) file.
Proof.
  intros (i & Hi)%list_elem_of_lookup. rewrite processLoop_lookup in Hi.
  destruct (files !! i) as [file|] eqn:Hf; [|done].
  injection Hi as <-. eauto.
Qed.

Lemma sortKey_range (d : Doc) :
  sortKey h d = JS.Infinity ∨ ∃ z, sortKey h d = JS.Fin z.
Proof. apply parseSortableDate_range. Qed.

Lemma handleProcessFiles_processedData (st : AppState) :
  files st ≠ [] →
  processedData (handleProcessFiles h world st) =
    JS.sort (keyDifference (sortKey h)) (processLoop world 0 (files st) []).
Proof.
  intros Hne. unfold handleProcessFiles.
  destruct (files st) as [|f fs]; [done|]. reflexivity.
Qed.

Lemma handleProcessFiles_Permutation (st : AppState) :
  files st ≠ [] →
  processedData (handleProcessFiles h world st) ≡ₚ processLoop world 0 (files st) [].
Proof.
  intros Hne. rewrite handleProcessFiles_processedData by done.
  apply sort_Permutation.
Qed.

Lemma handleProcessFiles_files (st : AppState) :
  files (handleProcessFiles h world st) = files st.
Proof. unfold handleProcessFiles. by destruct (length (files st) =? 0)%nat. Qed.

End Batch.

(** Filtering keeps the order of what it keeps. *)
Lemma filter_app_cons_inv {A} (p : A → bool) (l : list A) (l1 l2 : list A) (a : A) :
  List.filter p l = (l1 ++ a :: l2)%list →
  ∃ l1' l2', l = (l1' ++ a :: l2')%list ∧ List.filter p l1' = l1 ∧ List.filter p l2' = l2.
Proof.
  revert l1. induction l as [|x l IH]; intros l1; cbn.
  - by destruct l1.
  - destruct (p x) eqn:Hx.
    + destruct l1 as [|y l1]; cbn; intros [= -> Hl].
      * exists [], l. by rewrite Hl.
      * destruct (IH _ Hl) as (l1' & l2' & -> & <- & <-).
        exists (y :: l1'), l2'. cbn. by rewrite Hx.
    + intros Hl. destruct (IH _ Hl) as (l1' & l2' & -> & <- & <-).
      exists (x :: l1'), l2'. cbn. by rewrite Hx.
Qed.

Lemma before_filter {A} (p : A → bool) (a b : A) (l : list A) :
  before a b (List.filter p l) → before a b l.
Proof.
  intros (l1 & l2 & l3 & Hl).
  apply filter_app_cons_inv in Hl as (l1' & r & -> & _ & Hr).
  apply filter_app_cons_inv in Hr as (l2' & l3' & -> & _ & _).
  by exists l1', l2', l3'.
Qed.

Lemma filter_before {A} (p : A → bool) (a b : A) (l : list A) :
  p a = true → p b = true → before a b l → before a b (List.filter p l).
Proof.
  intros Ha Hb (l1 & l2 & l3 & ->).
  rewrite List.filter_app. cbn. rewrite Ha, List.filter_app. cbn. rewrite Hb.
  by eexists _, _, _.
Qed.

(** ** Claims about the batch pipeline *)

(** C1. For every non-empty sequence of input files the batch pipeline
    produces exactly one document per file: the published result has the
    length of the input and is a rearrangement of the records pushed file
    by file. The published result is in ascending order of the parsed
    sortable date, and that order is not the input order in general. *)
Theorem C1_one_document_per_file_sorted_by_date :
  (∀ h world st,
     files st ≠ [] →
     let st' := handleProcessFiles h world st in
     length (processedData st') = length (files st) ∧
     processedData st' ≡ₚ imap (λ i file, processFile (world i) file) (files st) ∧
     StronglySorted (keyLe (sortKey h)) (processedData st')) ∧
  (∀ h, ∃ world st,
     files st ≠ [] ∧
     processedData (handleProcessFiles h world st) ≠
       imap (λ i file, processFile (world i) file) (files st)).
Proof.
  split.
  - intros h world st Hne st'. subst st'.
    pose proof (handleProcessFiles_Permutation h world st Hne) as Hp.
    rewrite processLoop_imap in Hp. cbn in Hp.
    split; [|split].
    + by rewrite Hp, length_imap.
    + done.
    + rewrite handleProcessFiles_processedData by done.
      apply sort_sorted, sortKey_range.
  - intros h. exists sampleWorld, (initialState sampleFiles).
    split; [done|]. by destruct h.
Qed.

Lemma C1_witness :
  length (processedData
            (handleProcessFiles Date.StrictCalendar sampleWorld (initialState sampleFiles)))
  = length sampleFiles.
Proof.
  apply (proj1 C1_one_document_per_file_sorted_by_date
           Date.StrictCalendar sampleWorld (initialState sampleFiles)).
  discriminate.
Defined.

(** C2. For every input file on which the classifier answers [unknown] or
    the extractor raises, the batch pushes a failure record with [type]
    workOrder, [orden] the failure marker and [error] the failure's
    message: for an unrecognised type the message of line 149, "No se pudo
    reconocer el tipo de documento." (the interface's wording of "document
    type not recognized"), and when the extractor raises its own message
    or, if that is empty, the generic "Ocurrió un error desconocido.". No failure
    aborts the batch: every file of the input has its record at its own
    position of the accumulated sequence, whatever happened to the other
    files, and the published result rearranges exactly these records. *)
Theorem C2_failure_record_and_isolation
    (h : Date.Host) (world : nat → Service) (st : AppState) (i : nat) (file : File) :
  files st !! i = Some file →
  let allData := processLoop world 0 (files st) [] in
  let st' := handleProcessFiles h world st in
  (answer (world i) file = Unrecognised →
     allData !! i =
       Some (failureRecord file "No se pudo reconocer el tipo de documento.")) ∧
  (∀ t message,
     answer (world i) file = ExtractorError t message →
     allData !! i =
       Some (failureRecord file (orElse message "Ocurrió un error desconocido."))) ∧
  (∀ errorMessage,
     failureRecord file errorMessage !! "type" = Some "workOrder" ∧
     failureRecord file errorMessage !! "orden" = Some "Fallo de Procesamiento" ∧
     failureRecord file errorMessage !! "error" = Some errorMessage) ∧
  length allData = length (files st) ∧
  (∀ j file', files st !! j = Some file' →
     allData !! j = Some (processFile (world j) file')) ∧
  processedData st' ≡ₚ allData.
Proof.
  intros Hi allData st'. subst allData st'.
  assert (files st ≠ []) as Hne by (intros E; by rewrite E in Hi).
  repeat split.
  - intros Ha. rewrite processLoop_lookup, Hi. cbn. f_equal.
    apply processFile_failure. by rewrite Ha.
  - intros t message Ha. rewrite processLoop_lookup, Hi. cbn. f_equal.
    apply processFile_failure. by rewrite Ha.
  - apply processLoop_length.
  - intros j file' Hj. by rewrite processLoop_lookup, Hj.
  - by apply handleProcessFiles_Permutation.
Qed.

Lemma C2_witness :
  processLoop sampleWorld 0 sampleFiles [] !! 2%nat =
    Some (failureRecord {| name := "scan3.pdf"; content := "?" |}
            "No se pudo reconocer el tipo de documento.").
Proof.
  refine (proj1 (C2_failure_record_and_isolation Date.StrictCalendar sampleWorld
                   (initialState sampleFiles) 2 _ _) _); reflexivity.
Defined.

(** C5. The terminal sort is stable: two documents of equal sort key keep
    their relative order of before the sort, and so the documents of any
    one key appear in the published result in their input order. Documents
    whose date string is empty or matches neither pattern all have the key
    positive infinity, and keep their relative order. *)
Theorem C5_terminal_sort_is_stable
    (h : Date.Host) (world : nat → Service) (st : AppState) :
  files st ≠ [] →
  let allData := processLoop world 0 (files st) [] in
  let sortedData := processedData (handleProcessFiles h world st) in
  (∀ a b, sortKey h a = sortKey h b →
          before a b allData → before a b sortedData) ∧
  (∀ k, List.filter (λ d, bool_decide (sortKey h d = k)) sortedData =
        List.filter (λ d, bool_decide (sortKey h d = k)) allData) ∧
  (∀ a b,
     unparseable (sortDateString a) → unparseable (sortDateString b) →
     sortKey h a = JS.Infinity ∧ sortKey h b = JS.Infinity ∧
     (before a b allData → before a b sortedData)).
Proof.
  intros Hne allData sortedData.
  assert (∀ k, List.filter (λ d, bool_decide (sortKey h d = k)) sortedData =
               List.filter (λ d, bool_decide (sortKey h d = k)) allData) as Hstable.
  { intros k. subst sortedData. rewrite handleProcessFiles_processedData by done.
    apply sort_stable, sortKey_range. }
  assert (∀ a b, sortKey h a = sortKey h b →
                 before a b allData → before a b sortedData) as Hpair.
  { intros a b Hab Hbefore.
    apply (before_filter (λ d, bool_decide (sortKey h d = sortKey h a))).
    rewrite Hstable. apply filter_before; [| |done].
    - by apply bool_decide_eq_true.
    - by apply bool_decide_eq_true. }
  split; [done|]. split; [done|].
  intros a b Ha Hb.
  pose proof (unparseable_Infinity h _ Ha) as Ka.
  pose proof (unparseable_Infinity h _ Hb) as Kb.
  split; [done|]. split; [done|].
  apply Hpair. unfold sortKey. by rewrite Ka, Kb.
Qed.

Lemma C5_witness :
  List.filter (λ d, bool_decide (sortKey Date.RollOver d = JS.Infinity))
    (processedData (handleProcessFiles Date.RollOver sampleWorld (initialState sampleFiles)))
  = List.filter (λ d, bool_decide (sortKey Date.RollOver d = JS.Infinity))
      (processLoop sampleWorld 0 sampleFiles []).
Proof.
  refine (proj1 (proj2 (C5_terminal_sort_is_stable Date.RollOver sampleWorld
                          (initialState sampleFiles) _)) JS.Infinity).
  discriminate.
Defined.

(** ** Claims about the sortable-date parser *)

Lemma accepts_out_of_range (h : Date.Host) (y m d : Z) :
  (m < 1 ∨ 12 < m ∨ d < 1 ∨ 31 < d)%Z → Date.accepts h y m d = false.
Proof.
  intros Hr. unfold Date.accepts.
  destruct (Z.leb_spec 1 m), (Z.leb_spec m 12), (Z.leb_spec 1 d), (Z.leb_spec d 31);
    cbn; try done; lia.
Qed.

Lemma accepts_strict_day (y m d : Z) :
  (Date.DaysInMonth y m < d)%Z → Date.accepts Date.StrictCalendar y m d = false.
Proof.
  intros Hd. unfold Date.accepts.
  destruct (Z.leb_spec d (Date.DaysInMonth y m)); [lia|]. by rewrite !andb_false_r.
Qed.

Lemma calendarDate_None (s : string) :
  calendarDate s = None ↔ test_dd_dd_dd "/" s = false ∧ test_dd_dd_dd "-" s = false.
Proof.
  unfold calendarDate, test_dd_dd_dd.
  generalize (list_ascii_of_string s). intros l.
  do 8 (destruct l as [|? l]; [done|]). destruct l; [|done].
  cbn [forallb].
  repeat match goal with |- context [JS.isDigit ?x] => destruct (JS.isDigit x) end;
    cbn [andb]; try (rewrite ?andb_false_r; done).
  repeat match goal with |- context [Ascii.eqb ?x ?y] => destruct (Ascii.eqb x y) end;
    cbn [andb]; split; try done; by intros [? ?].
Qed.

(** A day number the month does not have, on a host that lets it run over:
    the time value is that of a day of the next month. *)
Lemma utc_run_over (y m d : Z) :
  (1 ≤ m ≤ 12)%Z → (Date.DaysInMonth y m < d ≤ 31)%Z →
  (m ≤ 11)%Z ∧
  Date.utc y m d = Date.utc y (m + 1)%Z (d - Date.DaysInMonth y m)%Z ∧
  validDate (y, (m + 1)%Z, (d - Date.DaysInMonth y m)%Z) = true.
Proof.
  intros Hm Hd.
  assert (m ≤ 11)%Z as Hm11.
  { destruct (decide (m = 12%Z)) as [->|]; [|lia].
    unfold Date.DaysInMonth in Hd. cbn in Hd. lia. }
  split; [done|]. split.
  - unfold Date.utc. rewrite daysBeforeMonth_next by lia. lia.
  - pose proof (DaysInMonth_bounds y m). pose proof (DaysInMonth_bounds y (m + 1)).
    unfold validDate, Date.accepts. cbn [fst snd].
    rewrite !andb_true_iff, !Z.leb_le. lia.
Qed.

(** The claim of the specification, "a string that parses to an invalid
    calendar date yields positive infinity", fails: 30 February 2024 is no
    date of the calendar, and on a host whose [Date] lets the day run over
    the parser returns the time value of 1 March 2024 for it. *)
Lemma C4_counterexample :
  calendarDate "02/30/24" = Some (2024, 2, 30)%Z ∧
  validDate (2024, 2, 30)%Z = false ∧
  spec_parseSortableDate "02/30/24" = JS.Infinity ∧
  parseSortableDate Date.RollOver "02/30/24" = JS.Fin 1709251200000.
Proof. by vm_compute. Qed.

(** C4, amended. The parser recognises exactly two literal patterns,
    MM/DD/YY with [/] and DD-MM-YY with [-], of two-digit segments, read in
    the century 2000. It returns positive infinity for the empty string,
    for a string matching neither pattern, and for a string whose month is
    not 1..12 or whose day is not 1..31; for a date of the calendar it
    returns the date's time value. For a day from 29 to 31 that the month
    does not have, the result is the host's: positive infinity where
    [Date] rejects the string, and the time value of the day so many days
    into the next month where [Date] lets it run over. On a host that
    rejects such days the parser is the function of the specification.
    "01/15/24" yields the time value of 15 January 2024, strictly below
    that of "20-01-24", 20 January 2024. *)
Theorem C4_parseSortableDate_two_patterns (h : Date.Host) :
  (∀ m1 m2 d1 d2 y1 y2,
     forallb JS.isDigit [m1; m2; d1; d2; y1; y2] = true →
     calendarDate (string_of_list_ascii [m1; m2; "/"; d1; d2; "/"; y1; y2])%char =
       Some ((2000 + Date.num2 y1 y2)%Z, Date.num2 m1 m2, Date.num2 d1 d2)) ∧
  (∀ d1 d2 m1 m2 y1 y2,
     forallb JS.isDigit [d1; d2; m1; m2; y1; y2] = true →
     calendarDate (string_of_list_ascii [d1; d2; "-"; m1; m2; "-"; y1; y2])%char =
       Some ((2000 + Date.num2 y1 y2)%Z, Date.num2 m1 m2, Date.num2 d1 d2)) ∧
  (∀ s, calendarDate s = None ↔
        test_dd_dd_dd "/" s = false ∧ test_dd_dd_dd "-" s = false) ∧
  parseSortableDate h "" = JS.Infinity ∧
  (∀ s, calendarDate s = None → parseSortableDate h s = JS.Infinity) ∧
  (∀ s y m d,
     calendarDate s = Some (y, m, d) →
     (m < 1 ∨ 12 < m ∨ d < 1 ∨ 31 < d)%Z →
     parseSortableDate h s = JS.Infinity) ∧
  (∀ s y m d,
     calendarDate s = Some (y, m, d) →
     validDate (y, m, d) = true →
     parseSortableDate h s = JS.Fin (Date.utc y m d)) ∧
  (∀ s y m d,
     calendarDate s = Some (y, m, d) →
     (1 ≤ m ≤ 12)%Z → (Date.DaysInMonth y m < d ≤ 31)%Z →
     validDate (y, m, d) = false ∧
     validDate (y, (m + 1)%Z, (d - Date.DaysInMonth y m)%Z) = true ∧
     parseSortableDate h s =
       match h with
       | Date.StrictCalendar => JS.Infinity
       | Date.RollOver => JS.Fin (Date.utc y (m + 1) (d - Date.DaysInMonth y m))
       end) ∧
  (∀ s, parseSortableDate Date.StrictCalendar s = spec_parseSortableDate s) ∧
  parseSortableDate h "01/15/24" = JS.Fin (Date.utc 2024 1 15) ∧
  parseSortableDate h "20-01-24" = JS.Fin (Date.utc 2024 1 20) ∧
  JS.ltb (parseSortableDate h "01/15/24") (parseSortableDate h "20-01-24") = true.
Proof.
  split.
  { intros m1 m2 d1 d2 y1 y2 Hd. unfold calendarDate.
    cbn [string_of_list_ascii list_ascii_of_string]. by rewrite Hd. }
  split.
  { intros d1 d2 m1 m2 y1 y2 Hd. unfold calendarDate.
    cbn [string_of_list_ascii list_ascii_of_string].
    replace (forallb JS.isDigit [d1; d2; m1; m2; y1; y2]) with true. done. }
  split; [apply calendarDate_None|].
  split; [done|].
  split; [intros s Hs; by rewrite parseSortableDate_calendarDate, Hs|].
  split.
  { intros s y m d Hs Hr. rewrite parseSortableDate_calendarDate, Hs. cbn [fst snd].
    by rewrite accepts_out_of_range. }
  split.
  { intros s y m d Hs Hv. rewrite parseSortableDate_calendarDate, Hs.
    by rewrite validDate_accepts. }
  split.
  { intros s y m d Hs Hm Hd.
    destruct (utc_run_over y m d Hm Hd) as (_ & Hutc & Hnext).
    split; [unfold validDate; cbn [fst snd]; apply accepts_strict_day; lia|].
    split; [done|].
    rewrite parseSortableDate_calendarDate, Hs. cbn [fst snd].
    destruct h.
    - by rewrite accepts_strict_day by lia.
    - rewrite <- Hutc. unfold Date.accepts.
      replace (1 <=? m)%Z with true by (symmetry; apply Z.leb_le; lia).
      replace (m <=? 12)%Z with true by (symmetry; apply Z.leb_le; lia).
      replace (1 <=? d)%Z with true
        by (symmetry; apply Z.leb_le; pose proof (DaysInMonth_bounds y m); lia).
      replace (d <=? 31)%Z with true by (symmetry; apply Z.leb_le; lia).
      done. }
  split.
  { intros s. rewrite parseSortableDate_calendarDate. reflexivity. }
  by destruct h.
Qed.

Lemma C4_witness :
  validDate (2024, 2, 30)%Z = false ∧
  validDate (2024, 3, 1)%Z = true ∧
  parseSortableDate Date.RollOver "02/30/24" = JS.Fin (Date.utc 2024 3 1).
Proof.
  refine (proj1 (proj2 (proj2 (proj2 (proj2 (proj2 (proj2 (proj2
            (C4_parseSortableDate_two_patterns Date.RollOver))))))))
            "02/30/24" 2024 2 30 _ _ _)%Z.
  - reflexivity.
  - lia.
  - vm_compute. split; [reflexivity|discriminate].
Defined.

(** ** The retry controller *)

Section Retry.

Variables (svc : Service) (st : AppState) (index : nat).

(** The four ways a retry ends, with the state each leaves. *)
Lemma handleRetryFile_cases :
  let '(st', o) := handleRetryFile svc st index in
  files st' = files st ∧
  match o with
  | RetryThrew => processedData st !! index = None ∧ processedData st' = processedData st
  | RetryNoFile =>
      (∃ docToRetry, processedData st !! index = Some docToRetry ∧
                     findOriginalFile (files st) docToRetry = None) ∧
      processedData st' = processedData st
  | RetryReplaced =>
      ∃ docToRetry originalFile newData,
        processedData st !! index = Some docToRetry ∧
        findOriginalFile (files st) docToRetry = Some originalFile ∧
        tryRetryFile svc originalFile = Ok newData ∧
        processedData st' = <[index := newData]> (processedData st)
  | RetryFailed =>
      ∃ docToRetry originalFile message,
        processedData st !! index = Some docToRetry ∧
        findOriginalFile (files st) docToRetry = Some originalFile ∧
        tryRetryFile svc originalFile = Throw message ∧
        processedData st' =
          <[index := <["error" := orElse message "El intento de re-procesar falló."]> docToRetry]>
            (processedData st)
  end.
Proof.
  unfold handleRetryFile.
  destruct (processedData st !! index) as [docToRetry|] eqn:Hd; [|done].
  destruct (findOriginalFile (files st) docToRetry) as [originalFile|] eqn:Hf.
  - destruct (tryRetryFile svc originalFile) as [newData|message] eqn:Hr; cbn.
    + split; [done|]. by exists docToRetry, originalFile, newData.
    + split; [done|]. by exists docToRetry, originalFile, message.
  - cbn. split; [done|]. split; [|done]. by exists docToRetry.
Qed.

Lemma handleRetryFile_frame (j : nat) :
  j ≠ index →
  processedData (handleRetryFile svc st index).1 !! j = processedData st !! j.
Proof.
  intros Hj. pose proof handleRetryFile_cases as H.
  destruct (handleRetryFile svc st index) as [st' o]. cbn.
  destruct H as [_ H]. destruct o.
  - destruct H as [_ ->]. done.
  - destruct H as [_ ->]. done.
  - destruct H as (? & ? & ? & _ & _ & _ & ->). by apply list_lookup_insert_ne.
  - destruct H as (? & ? & ? & _ & _ & _ & ->). by apply list_lookup_insert_ne.
Qed.

Lemma handleRetryFile_length :
  length (processedData (handleRetryFile svc st index).1) = length (processedData st).
Proof.
  pose proof handleRetryFile_cases as H.
  destruct (handleRetryFile svc st index) as [st' o]. cbn.
  destruct H as [_ H]. destruct o.
  - destruct H as [_ ->]. done.
  - destruct H as [_ ->]. done.
  - destruct H as (? & ? & ? & _ & _ & _ & ->). apply length_insert.
  - destruct H as (? & ? & ? & _ & _ & _ & ->). apply length_insert.
Qed.

(** A property of every document survives a retry if the document written
    at [index], when one is written, has it. *)
Lemma handleRetryFile_Forall (P : Doc → Prop) :
  (∀ d, d ∈ processedData st → P d) →
  (∀ d, (handleRetryFile svc st index).2 = RetryReplaced ∨
        (handleRetryFile svc st index).2 = RetryFailed →
        processedData (handleRetryFile svc st index).1 !! index = Some d → P d) →
  ∀ d, d ∈ processedData (handleRetryFile svc st index).1 → P d.
Proof.
  intros Hall Hnew d (j & Hj)%list_elem_of_lookup.
  destruct (decide (j = index)) as [->|Hne].
  - pose proof handleRetryFile_cases as H.
    destruct (handleRetryFile svc st index) as [st' o]. cbn in *.
    destruct H as [_ H]. destruct o.
    + destruct H as [_ E]. rewrite E in Hj. eapply Hall, list_elem_of_lookup_2, Hj.
    + destruct H as [_ E]. rewrite E in Hj. eapply Hall, list_elem_of_lookup_2, Hj.
    + apply Hnew; auto.
    + apply Hnew; auto.
  - rewrite handleRetryFile_frame in Hj by done.
    eapply Hall, list_elem_of_lookup_2, Hj.
Qed.

End Retry.

Lemma findOriginalFile_name (files : list File) (doc : Doc) (f : File) :
  findOriginalFile files doc = Some f →
  f ∈ files ∧ doc !! "originalFileName" = Some (name f).
Proof.
  unfold findOriginalFile. intros Hf. apply List.find_some in Hf as [Hin Hn].
  apply bool_decide_eq_true in Hn. split; [by apply list_elem_of_In|done].
Qed.


(** ** Claims about the retry controller *)

(** C7. Whatever the index and however the retry ends, it changes the
    result sequence at position [index] only: the document at any other
    index is the same as before, the sequence keeps its length, and the
    list of input files is not modified. *)
Theorem C7_retry_changes_one_slot
    (svc : Service) (st : AppState) (index j : nat) :
  j ≠ index →
  let st' := (handleRetryFile svc st index).1 in
  processedData st' !! j = processedData st !! j ∧
  length (processedData st') = length (processedData st) ∧
  files st' = files st.
Proof.
  intros Hj st'. subst st'. split; [by apply handleRetryFile_frame|].
  split; [apply handleRetryFile_length|].
  pose proof (handleRetryFile_cases svc st index) as H.
  destruct (handleRetryFile svc st index). by destruct H.
Qed.

Lemma C7_witness :
  let st := handleProcessFiles Date.StrictCalendar sampleWorld (initialState sampleFiles) in
  processedData (handleRetryFile markerService st 2).1 !! 0%nat = processedData st !! 0%nat.
Proof.
  intros st.
  refine (proj1 (C7_retry_changes_one_slot markerService st 2 0 _)). discriminate.
Defined.




(** ** Failure marker and [error] field *)








(** ** Export filename and link *)

Lemma wellFormed_linkIsArchivo (fileName : string) (e : Extracted) (d : Doc) :
  wellFormed fileName e d → linkIsArchivo d.
Proof.
  intros (Ht & _ & Ha & _ & _ & _ & Hl) Htype.
  rewrite Ht in Htype. rewrite Ha, Hl.
  destruct (typeOf e); cbn in *; try (destruct Htype; discriminate); by split.
Qed.

Lemma failureRecord_linkIsArchivo (file : File) (errorMessage : string) :
  linkIsArchivo (failureRecord file errorMessage).
Proof. intros [H|H]; discriminate H. Qed.

Lemma archivoFor_spec (id fileName : string) :
  archivoFor id fileName = if decide (id = "") then fileName else id +:+ ".pdf".
Proof.
  unfold archivoFor. destruct (String.eqb_spec id ""); by case_decide.
Qed.

(** C8. For every document type and extracted record, [archivo] is
    "{identifier}.pdf" when the primary identifier ([orden] of a work order
    or supply request, [folio] of an installation or uninstallation) is not
    empty, and the name of the uploaded file when it is empty; this holds
    for the batch and for a retry, which build the same document. For every
    installation and uninstallation document published by the pipeline or
    left by a retry, [link] equals [archivo]. *)
Theorem C8_archivo_and_link :
  (∀ svc file e,
     answer svc file = Success e →
     ∃ d, tryProcessFile svc file = Ok d ∧ tryRetryFile svc file = Ok d ∧
          d !! "orden" = Some (primaryIdentifier e) ∧
          d !! "archivo" =
            Some (if decide (primaryIdentifier e = "") then name file
                  else primaryIdentifier e +:+ ".pdf") ∧
          (typeOf e = uninstallation ∨ typeOf e = installation →
           d !! "link" = d !! "archivo")) ∧
  (∀ world files i file e,
     files !! i = Some file → answer (world i) file = Success e →
     ∃ d, processLoop world 0 files [] !! i = Some d ∧
          d !! "archivo" =
            Some (if decide (primaryIdentifier e = "") then name file
                  else primaryIdentifier e +:+ ".pdf")) ∧
  (∀ h world st d,
     files st ≠ [] → d ∈ processedData (handleProcessFiles h world st) →
     linkIsArchivo d) ∧
  (∀ svc st index,
     (∀ d, d ∈ processedData st → linkIsArchivo d) →
     ∀ d, d ∈ processedData (handleRetryFile svc st index).1 → linkIsArchivo d) ∧
  archivoFor "FOL123" "scan1.pdf" = "FOL123.pdf" ∧
  archivoFor "" "scan1.pdf" = "scan1.pdf".
Proof.
  split; [|split; [|split; [|split]]].
  - intros svc file e Ha.
    pose proof (tryProcessFile_answer svc file) as Hp.
    pose proof (tryRetryFile_tryProcessFile svc file) as Hr.
    rewrite Ha in Hp, Hr. destruct Hp as (d & Hd & Hw).
    exists d. split; [done|]. split; [congruence|].
    destruct Hw as (_ & Ho & Harch & _ & _ & _ & Hl).
    rewrite <- archivoFor_spec. split; [done|]. split; [done|].
    intros [Ht|Ht]; rewrite Ht in Hl; congruence.
  - intros world files i file e Hi Ha.
    eexists. split; [by rewrite processLoop_lookup, Hi|].
    apply processFile_success in Ha as (_ & _ & Harch & _).
    by rewrite <- archivoFor_spec.
  - intros h world st d Hne Hd.
    rewrite handleProcessFiles_Permutation in Hd by done.
    apply processLoop_elem in Hd as (i & file & Hi & ->).
    destruct (processFile_cases (world i) file) as [(m & _ & ->) | (e & Ha & Hw)].
    + apply failureRecord_linkIsArchivo.
    + by eapply wellFormed_linkIsArchivo.
  - intros svc st index Hall. apply handleRetryFile_Forall; [done|].
    intros d _ Hd.
    pose proof (handleRetryFile_cases svc st index) as H.
    destruct (handleRetryFile svc st index) as [st' o]. cbn in *.
    destruct H as [_ H]. destruct o.
    + destruct H as [Hn E]. rewrite E, Hn in Hd. done.
    + destruct H as [_ E]. rewrite E in Hd. eapply Hall, list_elem_of_lookup_2, Hd.
    + destruct H as (docToRetry & originalFile & newData & Hp & _ & Hr & E).
      rewrite E in Hd.
      rewrite list_lookup_insert_eq in Hd by (by eapply lookup_lt_Some).
      injection Hd as <-.
      pose proof (tryRetryFile_answer svc originalFile) as Ha.
      destruct (answer svc originalFile) as [| | |e] eqn:Hans; try congruence.
      destruct Ha as (d' & Hd' & Hw). rewrite Hr in Hd'. injection Hd' as <-.
      by eapply wellFormed_linkIsArchivo.
    + destruct H as (docToRetry & originalFile & message & Hp & _ & _ & E).
      rewrite E in Hd.
      rewrite list_lookup_insert_eq in Hd by (by eapply lookup_lt_Some).
      injection Hd as <-.
      assert (linkIsArchivo docToRetry) as Hold
        by (eapply Hall, list_elem_of_lookup_2, Hp).
      unfold linkIsArchivo in *. by rewrite !lookup_insert_ne.
  - split; reflexivity.
Qed.

Lemma C8_witness :
  ∃ d, tryProcessFile sampleService scan1 = Ok d ∧
       tryRetryFile sampleService scan1 = Ok d ∧
       d !! "orden" = Some "FOL123" ∧
       d !! "archivo" = Some "FOL123.pdf" ∧
       (workOrder = uninstallation ∨ workOrder = installation →
        d !! "link" = d !! "archivo").
Proof.
  exact (proj1 C8_archivo_and_link sampleService scan1 _ eq_refl).
Defined.

(** ** The marker as extracted data *)

Lemma notFailed_isFailed (d : Doc) : notFailed d = false ↔ isFailed d.
Proof.
  unfold notFailed, isFailed. rewrite negb_false_iff. apply bool_decide_eq_true.
Qed.

(** C10. There is an input on which classification and extraction both
    succeed, with the text of the failure marker as the extracted
    identifier; the resulting document has no [error] and is yet counted as
    a failure by the batch summary, left out of the Excel export and left
    out of the archive of renamed files. More generally, whatever the
    input, a document whose [orden] is the marker is in none of the export
    sheets, adds no archive entry and is not counted as a success. *)
Theorem C10_extracted_marker_is_treated_as_failure :
  (∃ world file e,
     answer (world 0%nat) file = Success e ∧ primaryIdentifier e = failureMarker ∧
     ∀ h,
       let st' := handleProcessFiles h world (initialState [file]) in
       ∃ d, processedData st' = [d] ∧
            d !! "error" = None ∧
            summaryOf st' = Some (0, 1)%nat ∧
            handleExportAll st' = None ∧
            ∀ docType, handleDownloadZip st' docType = None) ∧
  (∀ (l : list Doc) (d : Doc) (t : DocumentType),
     isFailed d →
     (d ∉ List.filter notFailed l) ∧
     (d ∉ List.filter (λ d, hasType t d && notFailed d) l)).
Proof.
  split.
  - exists (λ _, markerService), scan1. eexists.
    split; [reflexivity|]. split; [reflexivity|].
    intros h. eexists. split; [by destruct h|].
    split; [done|]. split; [by destruct h|]. split; [by destruct h|].
    intros docType. by destruct h, docType.
  - intros l d t Hd. apply notFailed_isFailed in Hd.
    split; intros Hin; apply list_elem_of_In, List.filter_In in Hin as [_ Hin].
    + congruence.
    + rewrite Hd, andb_false_r in Hin. done.
Qed.

Lemma C10_witness :
  (failureRecord scan1 "x" ∉ List.filter notFailed [failureRecord scan1 "x"]) ∧
  (failureRecord scan1 "x" ∉
     List.filter (λ d, hasType workOrder d && notFailed d) [failureRecord scan1 "x"]).
Proof.
  refine (proj2 C10_extracted_marker_is_treated_as_failure
            [failureRecord scan1 "x"] (failureRecord scan1 "x") workOrder _).
  reflexivity.
Defined.

(** ** The field editor *)

Lemma positionOfRow_filter {A} (p : A → bool) (data : list A) (row : nat) :
  List.filter p data !! row = positionOfRow p data row ≫= (data !!.).
Proof.
  revert row. induction data as [|x rest IH]; intros row; [done|].
  cbn. destruct (p x).
  - destruct row as [|row]; [done|]. cbn. rewrite IH.
    by destruct (positionOfRow p rest row).
  - rewrite IH. by destruct (positionOfRow p rest row).
Qed.

Lemma positionOfRow_lookup {A} (p : A → bool) (data : list A) (row pos : nat) :
  positionOfRow p data row = Some pos → ∃ x, data !! pos = Some x ∧ p x = true.
Proof.
  revert row pos. induction data as [|x rest IH]; intros row pos; [done|].
  cbn. destruct (p x) eqn:Hx.
  - destruct row as [|row]; [intros [= <-]; eauto|].
    destruct (positionOfRow p rest row) as [q|] eqn:Hq; [|done].
    intros [= <-]. by apply IH in Hq.
  - destruct (positionOfRow p rest row) as [q|] eqn:Hq; [|done].
    intros [= <-]. by apply IH in Hq.
Qed.

Lemma findIndex_Some {A} (p : A → bool) (data : list A) (pos : nat) (x : A) :
  data !! pos = Some x → p x = true →
  (∀ j y, data !! j = Some y → j < pos → p y = false) →
  findIndex p data = Some pos.
Proof.
  intros Hpos Hx Hfirst. unfold findIndex.
  assert (list_find (λ x, p x = true) data = Some (pos, x)) as ->; [|done].
  apply list_find_Some. split; [done|]. split; [done|].
  intros j y Hj Hlt. rewrite (Hfirst j y) by done. discriminate.
Qed.

Lemma findIndex_None {A} (p : A → bool) (data : list A) :
  Forall (λ x, p x = false) data → findIndex p data = None.
Proof.
  intros Hall. unfold findIndex.
  assert (list_find (λ x, p x = true) data = None) as ->; [|done].
  apply list_find_None. eapply Forall_impl; [exact Hall|].
  intros x Hx. rewrite Hx. discriminate.
Qed.

(** When the callback runs on the very array its render saw, and no two
    documents share a file name, the editor changes the document the
    current modal view shows in that row. *)
Lemma handleDataUpdate_fresh (st : AppState) (index : nat) (field value : string) :
  NoDup ((.!! "originalFileName") <$> processedData st) →
  Forall (λ d : Doc, is_Some (d !! "originalFileName")) (processedData st) →
  handleDataUpdate st index field value (processedData st) =
    spec_dataUpdate (previewDocumentType st) index field value (processedData st).
Proof.
  intros Hnd Hall. unfold handleDataUpdate, spec_dataUpdate, dataForModal.
  assert (Forall (λ d : Doc, d !! "originalFileName" ≠ None) (processedData st)) as Hnone.
  { eapply Forall_impl; [exact Hall|]. intros d [n Hn]. congruence. }
  destruct (previewDocumentType st) as [t|].
  - rewrite positionOfRow_filter.
    destruct (positionOfRow (hasType t) (processedData st) index) as [pos|] eqn:Hpos.
    + destruct (positionOfRow_lookup _ _ _ _ Hpos) as (d & Hd & _).
      assert (is_Some (d !! "originalFileName")) as [n Hn].
      { rewrite Forall_forall in Hall. by eapply Hall, list_elem_of_lookup_2. }
      change (Some pos ≫= (processedData st !!.)) with (processedData st !! pos).
      rewrite Hd.
      change (Some d ≫= (.!! "originalFileName")) with (d !! "originalFileName").
      rewrite Hn. erewrite findIndex_Some; [by rewrite Hd|exact Hd| |].
      * by apply bool_decide_eq_true.
      * intros j y Hj Hlt. apply bool_decide_eq_false. intros Hy.
        assert (j = pos); [|lia].
        eapply (NoDup_lookup _ j pos (Some n) Hnd).
        -- by rewrite list_lookup_fmap, Hj; cbn; rewrite Hy.
        -- by rewrite list_lookup_fmap, Hd; cbn; rewrite Hn.
    + change (None ≫= (processedData st !!.)) with (@None Doc).
      change (None ≫= (.!! "originalFileName")) with (@None string).
      rewrite findIndex_None; [done|]. eapply Forall_impl; [exact Hnone|].
      intros d Hd. by apply bool_decide_eq_false.
  - change ([] !! index ≫= (.!! "originalFileName")) with (@None string).
    rewrite findIndex_None; [done|]. eapply Forall_impl; [exact Hnone|].
    intros d Hd. by apply bool_decide_eq_false.
Qed.

Lemma handleDataUpdate_fresh_witness :
  let st := openPreview workOrder
              (handleProcessFiles Date.StrictCalendar sampleWorld (initialState sampleFiles)) in
  handleDataUpdate st 1 "serie" "X" (processedData st) =
    spec_dataUpdate (Some workOrder) 1 "serie" "X" (processedData st).
Proof.
  intros st. apply (handleDataUpdate_fresh st 1 "serie" "X").
  - refine (@bool_decide_unpack _ (NoDup_dec _) _). vm_compute. exact I.
  - repeat constructor; by eexists.
Defined.

(** C9: the code at the failing input. A render shows the failure record of
    scan3.pdf and the work order of scan1.pdf in the work-order modal; a
    retry then replaces the failure record by a supply request. The editing
    callback of that render, asked to edit row 0, resolves the row in the
    array it captured and changes the supply request, while row 0 of the
    modal view of the current array is the work order of scan1.pdf. *)
Theorem C9_stale_snapshot_edits_another_document :
  let rendered :=
    openPreview workOrder
      (handleProcessFiles Date.StrictCalendar staleWorld (initialState [scan3; scan1])) in
  let current := processedData (handleRetryFile supplyService rendered 0).1 in
  ∃ F W S : Doc,
    processedData rendered = [F; W] ∧ current = [S; W] ∧
    F !! "orden" = Some failureMarker ∧
    S !! "type" = Some "supplyRequest" ∧ W !! "type" = Some "workOrder" ∧
    dataForModal (Some workOrder) current = [W] ∧
    handleDataUpdate rendered 0 "serie" "X" current = [<["serie" := "X"]> S; W] ∧
    spec_dataUpdate (Some workOrder) 0 "serie" "X" current = [S; <["serie" := "X"]> W] ∧
    handleDataUpdate rendered 0 "serie" "X" current ≠
      spec_dataUpdate (Some workOrder) 0 "serie" "X" current.
Proof.
  cbn zeta. eexists _, _, _.
  split; [reflexivity|]. split; [reflexivity|]. by repeat split.
Qed.

(** Two uploaded files of one name: even on the array its render saw, the
    editor asked for row 1 changes row 0. *)
Lemma handleDataUpdate_shared_file_name :
  let st :=
    openPreview workOrder
      (handleProcessFiles Date.StrictCalendar (λ _, undatedService) (initialState [scan1; scan1])) in
  ∃ W : Doc,
    processedData st = [W; W] ∧
    handleDataUpdate st 1 "serie" "X" (processedData st) = [<["serie" := "X"]> W; W] ∧
    spec_dataUpdate (Some workOrder) 1 "serie" "X" (processedData st) = [W; <["serie" := "X"]> W].
Proof. cbn zeta. eexists. by repeat split. Qed.

(* ===================================================================== *)
(** * Part II, continued: further properties of the code                   *)
(* ===================================================================== *)

(** ** File selection *)

Lemma filter_length_all {A} (p : A → bool) (l : list A) :
  length (List.filter p l) = length l ↔ Forall (λ x, p x = true) l.
Proof.
  induction l as [|x l IH]; cbn; [by split; [constructor|]|].
  pose proof (List.filter_length_le p l) as Hle.
  destruct (p x) eqn:Hx; cbn.
  - split.
    + intros [= Hl]. constructor; [done|by apply IH].
    + intros Hall. apply Forall_cons in Hall as [_ Hall]. f_equal. by apply IH.
  - split; [lia|]. intros Hall. apply Forall_cons in Hall as [Hx' _]. congruence.
Qed.

Lemma process_after_selection (h : Date.Host) (world : nat → Service)
    (kept : list Upload) (loading : bool) (retrying : option nat)
    (preview : option DocumentType) :
  length (processedData
            (handleProcessFiles h world
               {| files := map upload kept; processedData := [];
                  isLoading := loading; retryingIndex := retrying;
                  previewDocumentType := preview; toast := None |})) =
  length kept.
Proof.
  destruct kept as [|u us]; [done|].
  rewrite handleProcessFiles_processedData by done.
  rewrite (sort_length (sortKey h)), processLoop_length. cbn [files].
  apply List.length_map.
Qed.

(** X1. A drop keeps exactly the files whose MIME type is application/pdf,
    in their order, and discards every earlier result; it announces ignored
    files exactly when some dropped file is not a PDF, and the number of
    files otherwise. Choosing the same files in the file dialog has the
    same effect, and a batch started afterwards publishes one document per
    PDF kept. *)
Theorem X1_selection_keeps_pdfs_and_resets
    (dataTransferFiles : list Upload) (st : AppState) :
  let st' := (handleDrop dataTransferFiles st).1 in
  let shown := (handleDrop dataTransferFiles st).2 in
  files st' = map upload (List.filter isPdf dataTransferFiles) ∧
  processedData st' = [] ∧
  (shown = ToastSomeIgnored ↔ ∃ u, u ∈ dataTransferFiles ∧ mimeType u ≠ "application/pdf") ∧
  (shown ≠ ToastSomeIgnored → shown = ToastLoaded (length dataTransferFiles)) ∧
  handleFileChange (Some dataTransferFiles) st = (st', Some shown) ∧
  handleFileChange None st = (st, None) ∧
  (∀ h world,
     length (processedData (handleProcessFiles h world st')) =
       length (List.filter isPdf dataTransferFiles)).
Proof.
  cbn zeta. unfold handleDrop, handleFileChange. cbn [fst snd files processedData].
  split; [done|]. split; [done|].
  pose proof (filter_length_all isPdf dataTransferFiles) as Hall.
  destruct (Nat.eqb_spec (length (List.filter isPdf dataTransferFiles))
              (length dataTransferFiles)) as [E|E]; cbn [negb].
  - split; [|split; [|split; [|split]]]; try done.
    + split; [done|]. intros (u & Hu & Hn). apply Hall in E.
      rewrite Forall_forall in E. apply E in Hu. unfold isPdf in Hu.
      by apply bool_decide_eq_true in Hu.
    + intros _. by rewrite E.
    + intros h world. apply process_after_selection.
  - split; [|split; [|split; [|split]]]; try done.
    + split; [|done]. intros _.
      destruct (decide (Forall (λ x, isPdf x = true) dataTransferFiles)) as [Hf|Hf].
      { by apply Hall in Hf. }
      apply not_Forall_Exists in Hf; [|intros x; apply _].
      apply Exists_exists in Hf as (u & Hu & Hn). exists u. split; [done|].
      intros Hm. apply Hn. unfold isPdf. by apply bool_decide_eq_true.
    + intros h world. apply process_after_selection.
Qed.

Lemma X1_witness :
  files (handleDrop sampleUploads (initialState [])).1 = [scan1; scan3] ∧
  (handleDrop sampleUploads (initialState [])).2 = ToastSomeIgnored.
Proof.
  split.
  - exact (proj1 (X1_selection_keeps_pdfs_and_resets sampleUploads (initialState []))).
  - reflexivity.
Defined.

(** ** Files and types of the documents *)

Lemma processFile_originalFileName (svc : Service) (file : File) :
  processFile svc file !! "originalFileName" = Some (name file).
Proof.
  destruct (processFile_cases svc file) as [(m & _ & ->) | (e & _ & Hw)]; [done|].
  by destruct Hw as (_ & _ & _ & Hn & _).
Qed.


Lemma processLoop_names (world : nat → Service) (files : list File) :
  (.!! "originalFileName") <$> processLoop world 0 files [] = Some ∘ name <$> files.
Proof.
  apply list_eq. intros i. rewrite !list_lookup_fmap, processLoop_lookup.
  destruct (files !! i) as [file|]; [|done]. cbn.
  by rewrite processFile_originalFileName.
Qed.

(** A successful retry writes the very document the batch builds for the
    file. *)
Lemma tryRetryFile_Ok_processFile (svc : Service) (file : File) (d : Doc) :
  tryRetryFile svc file = Ok d → processFile svc file = d.
Proof.
  rewrite tryRetryFile_tryProcessFile. unfold processFile.
  destruct (answer svc file); try done; by intros ->.
Qed.

Lemma findOriginalFile_None (files : list File) (doc : Doc) :
  findOriginalFile files doc = None ↔ ¬ fileSelected files doc.
Proof.
  unfold findOriginalFile, fileSelected. split.
  - intros Hnone (f & Hin & Hn). apply list_elem_of_In in Hin.
    pose proof (List.find_none _ _ Hnone f Hin) as Hf. cbn in Hf.
    apply bool_decide_eq_false in Hf. by rewrite Hn in Hf.
  - intros Hno. destruct (List.find _ files) as [f|] eqn:Hfind; [|done].
    apply List.find_some in Hfind as [Hin Hn]. apply bool_decide_eq_true in Hn.
    destruct Hno. exists f. by rewrite <- list_elem_of_In in Hin.
Qed.

Lemma handleProcessFiles_names (h : Date.Host) (world : nat → Service) (st : AppState) :
  files st ≠ [] →
  ((.!! "originalFileName") <$> processedData (handleProcessFiles h world st)) ≡ₚ
    (Some ∘ name <$> files st).
Proof.
  intros Hne. rewrite handleProcessFiles_Permutation by done.
  by rewrite processLoop_names.
Qed.


Section ArrayAssign.

Context {A : Type}.
Implicit Types (a : list A) (v : A) (index j : nat).

Lemma arrayAssign_in_place index v a :
  (index < length a)%nat → arrayAssign index v a = Some <$> <[index := v]> a.
Proof.
  intros Hlt. unfold arrayAssign.
  by replace (index <? length a)%nat with true by (symmetry; by apply Nat.ltb_lt).
Qed.

Lemma arrayAssign_past_the_end index v a :
  (length a ≤ index)%nat →
  arrayAssign index v a =
    ((Some <$> a) ++ replicate (index - length a) None ++ [Some v])%list.
Proof.
  intros Hle. unfold arrayAssign.
  by replace (index <? length a)%nat with false by (symmetry; apply Nat.ltb_ge; lia).
Qed.

Lemma arrayAssign_length index v a :
  length (arrayAssign index v a) = max (length a) (S index).
Proof.
  destruct (decide (index < length a)%nat) as [Hlt|Hge].
  - rewrite arrayAssign_in_place by done.
    rewrite length_fmap, length_insert. lia.
  - rewrite arrayAssign_past_the_end by lia.
    rewrite !length_app, length_fmap, length_replicate. cbn. lia.
Qed.

Lemma arrayAssign_lookup_eq index v a :
  arrayAssign index v a !! index = Some (Some v).
Proof.
  destruct (decide (index < length a)%nat) as [Hlt|Hge].
  - rewrite arrayAssign_in_place by done.
    by rewrite list_lookup_fmap, list_lookup_insert_eq.
  - rewrite arrayAssign_past_the_end by lia.
    rewrite lookup_app_r by (rewrite length_fmap; lia). rewrite length_fmap.
    rewrite lookup_app_r by (rewrite length_replicate; lia).
    rewrite length_replicate. by rewrite Nat.sub_diag.
Qed.

Lemma arrayAssign_lookup_ne index v a j x :
  j ≠ index → a !! j = Some x → arrayAssign index v a !! j = Some (Some x).
Proof.
  intros Hne Hj. destruct (decide (index < length a)%nat) as [Hlt|Hge].
  - rewrite arrayAssign_in_place by done.
    by rewrite list_lookup_fmap, list_lookup_insert_ne, Hj.
  - rewrite arrayAssign_past_the_end by lia.
    rewrite lookup_app_l by (rewrite length_fmap; by eapply lookup_lt_Some).
    by rewrite list_lookup_fmap, Hj.
Qed.

(** The elements of the array, holes left out (what [filter], [map] and
    [forEach] visit). *)
Lemma arrayAssign_elements_past_the_end index v a :
  (length a ≤ index)%nat → omap id (arrayAssign index v a) = (a ++ [v])%list.
Proof.
  intros Hle. rewrite arrayAssign_past_the_end by done.
  rewrite !omap_app. cbn.
  assert (∀ l : list A, omap id (Some <$> l) = l) as ->.
  { induction l as [|x l IH]; [done|]. cbn. by rewrite IH. }
  assert (∀ n, omap id (replicate n (@None A)) = []) as ->.
  { induction n as [|n IH]; [done|]. by cbn. }
  done.
Qed.

End ArrayAssign.

Section RetryAt.

Variables (svc : Service) (captured : AppState) (index : nat) (prevData : list Doc).

(** The four ways a retry ends, with the row and the file of its closure,
    and what it hands to [setProcessedData]. *)
Lemma handleRetryFileAt_cases :
  match (handleRetryFileAt svc captured index prevData).1 with
  | RetryThrew =>
      processedData captured !! index = None ∧
      (handleRetryFileAt svc captured index prevData).2 = Some <$> prevData
  | RetryNoFile =>
      (∃ previous,
         processedData captured !! index = Some previous ∧
         ¬ fileSelected (files captured) previous) ∧
      (handleRetryFileAt svc captured index prevData).2 = Some <$> prevData
  | RetryReplaced =>
      ∃ previous originalFile,
        processedData captured !! index = Some previous ∧
        originalFile ∈ files captured ∧
        previous !! "originalFileName" = Some (name originalFile) ∧
        (handleRetryFileAt svc captured index prevData).2 =
          arrayAssign index (processFile svc originalFile) prevData
  | RetryFailed =>
      ∃ previous originalFile message,
        processedData captured !! index = Some previous ∧
        originalFile ∈ files captured ∧
        previous !! "originalFileName" = Some (name originalFile) ∧
        message ≠ "" ∧
        (handleRetryFileAt svc captured index prevData).2 =
          arrayAssign index (<["error" := message]> (default ∅ (prevData !! index)))
            prevData
  end.
Proof.
  unfold handleRetryFileAt.
  destruct (processedData captured !! index) as [previous|] eqn:Hp; [|done].
  destruct (findOriginalFile (files captured) previous) as [originalFile|] eqn:Hf.
  - apply findOriginalFile_name in Hf as [Hin Hn].
    destruct (tryRetryFile svc originalFile) as [newData|message] eqn:Hr; cbn.
    + apply tryRetryFile_Ok_processFile in Hr as <-. by exists previous, originalFile.
    + exists previous, originalFile, (orElse message "El intento de re-procesar falló.").
      repeat split; try done. unfold orElse. by destruct message.
  - apply findOriginalFile_None in Hf. cbn. split; [|done]. by exists previous.
Qed.

(** Run alone, with the array of its closure still the current one, a
    retry is [handleRetryFile]. *)
Lemma handleRetryFileAt_alone :
  prevData = processedData captured →
  (handleRetryFileAt svc captured index prevData).1 =
    (handleRetryFile svc captured index).2 ∧
  (handleRetryFileAt svc captured index prevData).2 =
    Some <$> processedData (handleRetryFile svc captured index).1.
Proof.
  intros ->. unfold handleRetryFileAt, handleRetryFile.
  destruct (processedData captured !! index) as [previous|] eqn:Hp; [|done].
  assert (index < length (processedData captured)) as Hlt by (by eapply lookup_lt_Some).
  destruct (findOriginalFile (files captured) previous) as [originalFile|]; [|done].
  destruct (tryRetryFile svc originalFile) as [newData|message]; cbn.
  - by rewrite arrayAssign_in_place.
  - by rewrite arrayAssign_in_place.
Qed.

End RetryAt.

Section EditFields.

Variables (captured : AppState) (index : nat) (field value : string).



End EditFields.




(** ** Retry and selection *)

(** X2. A retry ends with "file not found" exactly when the row of its
    render names no file of the selection of its render, and it then
    leaves the documents as they are. Every document a batch publishes
    names a file of the selection the batch was started on (the file names
    of the documents are, up to order, those of the files). So a retry
    started from a render that shows a batch's result, with that selection
    still in place, finds its file: it ends by writing the new document or
    by recording the failure, whatever has become of the array
    meanwhile. *)
Theorem X2_retry_finds_the_file_while_selected :
  (∀ svc captured index prevData,
     (handleRetryFileAt svc captured index prevData).1 = RetryNoFile ↔
     ∃ row, processedData captured !! index = Some row ∧
            ¬ fileSelected (files captured) row) ∧
  (∀ svc captured index prevData,
     (handleRetryFileAt svc captured index prevData).1 = RetryNoFile →
     (handleRetryFileAt svc captured index prevData).2 = Some <$> prevData) ∧
  (∀ h world st,
     files st ≠ [] →
     ((.!! "originalFileName") <$> processedData (handleProcessFiles h world st)) ≡ₚ
       (Some ∘ name <$> files st)) ∧
  (∀ h world st svc captured index prevData,
     files st ≠ [] →
     processedData captured = processedData (handleProcessFiles h world st) →
     files captured = files st →
     index < length (files st) →
     (handleRetryFileAt svc captured index prevData).1 = RetryReplaced ∨
     (handleRetryFileAt svc captured index prevData).1 = RetryFailed).
Proof.
  assert (∀ svc captured index prevData,
            (handleRetryFileAt svc captured index prevData).1 = RetryNoFile ↔
            ∃ row, processedData captured !! index = Some row ∧
                   ¬ fileSelected (files captured) row) as Hiff.
  { intros svc captured index prevData.
    pose proof (handleRetryFileAt_cases svc captured index prevData) as H.
    destruct ((handleRetryFileAt svc captured index prevData).1).
    - destruct H as [Hnone _]. split; [done|]. intros (row & Hrow & _). congruence.
    - by destruct H as [H _].
    - destruct H as (previous & f & Hp & Hin & Hn & _). split; [done|].
      intros (row & Hrow & Hno). destruct Hno. exists f.
      rewrite Hp in Hrow. by injection Hrow as <-.
    - destruct H as (previous & f & m & Hp & Hin & Hn & _). split; [done|].
      intros (row & Hrow & Hno). destruct Hno. exists f.
      rewrite Hp in Hrow. by injection Hrow as <-. }
  split; [done|]. split.
  { intros svc captured index prevData Ho.
    pose proof (handleRetryFileAt_cases svc captured index prevData) as H.
    rewrite Ho in H. by destruct H. }
  split; [apply handleProcessFiles_names|].
  intros h world st svc captured index prevData Hne Hdata Hfiles Hlt.
  pose proof (handleProcessFiles_names h world st Hne) as Hnames.
  assert (length (processedData captured) = length (files st)) as Hlen.
  { rewrite Hdata. apply Permutation_length in Hnames. by rewrite !length_fmap in Hnames. }
  destruct (lookup_lt_is_Some_2 (processedData captured) index) as [row Hrow]; [lia|].
  assert (fileSelected (files captured) row) as Hsel.
  { assert (row !! "originalFileName" ∈
              (.!! "originalFileName") <$> processedData captured) as Hin.
    { apply list_elem_of_fmap_2. by eapply list_elem_of_lookup_2. }
    rewrite Hdata, Hnames in Hin. apply list_elem_of_fmap in Hin as (f & Hn & Hf).
    exists f. by rewrite Hfiles. }
  pose proof (handleRetryFileAt_cases svc captured index prevData) as H.
  destruct ((handleRetryFileAt svc captured index prevData).1); auto.
  - destruct H as [Hnone _]. congruence.
  - destruct H as [(previous & Hp & Hno) _]. destruct Hno.
    rewrite Hrow in Hp. by injection Hp as <-.
Qed.

Lemma X2_witness :
  (handleRetryFileAt unknownService sampleSession 1 []).1 = RetryReplaced ∨
  (handleRetryFileAt unknownService sampleSession 1 []).1 = RetryFailed.
Proof.
  refine (proj2 (proj2 (proj2 X2_retry_finds_the_file_while_selected))
            Date.StrictCalendar sampleWorld (handleDrop sampleUploads (initialState [])).1
            unknownService sampleSession 1 [] _ _ _ _).
  - discriminate.
  - reflexivity.
  - reflexivity.
  - vm_compute. lia.
Defined.

(** ** The result tables *)


Lemma elem_of_filter_bool {A} (p : A → bool) (l : list A) (x : A) :
  x ∈ List.filter p l ↔ x ∈ l ∧ p x = true.
Proof. by rewrite !list_elem_of_In, List.filter_In. Qed.





(** ** Retry and batch *)

(** X4. A retry writes slot [index] of the array that is current when its
    service calls return, and no other slot. When it succeeds, the
    document written is exactly the document the batch builds, from the
    same answers of the service, for the file that the row of the retry's
    own render names, a file of the selection of that render; when it
    fails, the document written is the current row with [error] set to a
    non-empty message. If the current row at [index] still names the file
    the retry read, no row changes its [originalFileName]. Run alone, the
    retry is [handleRetryFile]. *)
Theorem X4_retry_rebuilds_the_batch_document
    (svc : Service) (captured : AppState) (index : nat) (prevData : list Doc) :
  let outcome := (handleRetryFileAt svc captured index prevData).1 in
  let updatedData := (handleRetryFileAt svc captured index prevData).2 in
  (∀ j row, j ≠ index → prevData !! j = Some row → updatedData !! j = Some (Some row)) ∧
  (outcome = RetryReplaced →
   ∃ previous originalFile,
     processedData captured !! index = Some previous ∧
     originalFile ∈ files captured ∧
     previous !! "originalFileName" = Some (name originalFile) ∧
     updatedData !! index = Some (Some (processFile svc originalFile))) ∧
  (outcome = RetryFailed →
   ∃ message,
     message ≠ "" ∧
     updatedData !! index =
       Some (Some (<["error" := message]> (default ∅ (prevData !! index))))) ∧
  (outcome = RetryThrew ∨ outcome = RetryNoFile → updatedData = Some <$> prevData) ∧
  (∀ previous row,
     processedData captured !! index = Some previous →
     prevData !! index = Some row →
     row !! "originalFileName" = previous !! "originalFileName" →
     (λ slot : option Doc, slot ≫= (.!! "originalFileName")) <$> updatedData =
       (.!! "originalFileName") <$> prevData) ∧
  (prevData = processedData captured →
   outcome = (handleRetryFile svc captured index).2 ∧
   updatedData = Some <$> processedData (handleRetryFile svc captured index).1).
Proof.
  cbn zeta.
  pose proof (handleRetryFileAt_cases svc captured index prevData) as H.
  split.
  { intros j row Hne Hj.
    destruct ((handleRetryFileAt svc captured index prevData).1).
    - destruct H as [_ ->]. by rewrite list_lookup_fmap, Hj.
    - destruct H as [_ ->]. by rewrite list_lookup_fmap, Hj.
    - destruct H as (previous & f & _ & _ & _ & ->). by apply arrayAssign_lookup_ne.
    - destruct H as (previous & f & m & _ & _ & _ & _ & ->).
      by apply arrayAssign_lookup_ne. }
  split.
  { intros Ho. rewrite Ho in H. destruct H as (previous & f & Hp & Hin & Hn & ->).
    exists previous, f. repeat split; try done. apply arrayAssign_lookup_eq. }
  split.
  { intros Ho. rewrite Ho in H. destruct H as (previous & f & m & _ & _ & _ & Hm & ->).
    exists m. split; [done|]. apply arrayAssign_lookup_eq. }
  split.
  { intros [Ho|Ho]; rewrite Ho in H; by destruct H. }
  split.
  { intros previous row Hp Hrow Hsame.
    assert (index < length prevData) as Hlt by (by eapply lookup_lt_Some).
    assert (∀ d : Doc, d !! "originalFileName" = row !! "originalFileName" →
              (λ slot : option Doc, slot ≫= (.!! "originalFileName")) <$>
                arrayAssign index d prevData = (.!! "originalFileName") <$> prevData)
      as Hwrite.
    { intros d Hd. rewrite arrayAssign_in_place by done.
      rewrite <- list_fmap_compose.
      change ((λ slot : option Doc, slot ≫= (.!! "originalFileName")) ∘ Some)
        with (λ d : Doc, d !! "originalFileName").
      rewrite list_fmap_insert, Hd.
      apply list_insert_id. by rewrite list_lookup_fmap, Hrow. }
    destruct ((handleRetryFileAt svc captured index prevData).1).
    - destruct H as [_ ->]. by rewrite <- list_fmap_compose.
    - destruct H as [_ ->]. by rewrite <- list_fmap_compose.
    - destruct H as (previous' & f & Hp' & _ & Hn & ->). apply Hwrite.
      rewrite processFile_originalFileName, Hsame.
      rewrite Hp in Hp'. injection Hp' as <-. by rewrite Hn.
    - destruct H as (previous' & f & m & _ & _ & _ & _ & ->). apply Hwrite.
      rewrite Hrow. cbn. by rewrite lookup_insert_ne. }
  apply handleRetryFileAt_alone.
Qed.

Lemma X4_witness :
  ∃ previous originalFile,
    processedData sampleSession !! 1%nat = Some previous ∧
    originalFile ∈ files sampleSession ∧
    previous !! "originalFileName" = Some (name originalFile) ∧
    (handleRetryFileAt supplyService sampleSession 1 []).2 !! 1%nat =
      Some (Some (processFile supplyService originalFile)).
Proof.
  apply (proj1 (proj2 (X4_retry_rebuilds_the_batch_document
                         supplyService sampleSession 1 []))).
  reflexivity.
Defined.

(** X17. A retry that fails once the array has become shorter than its
    index (the results were cleared or replaced while it ran) writes past
    the end of the array: the array grows to [index + 1] slots, and the
    document written holds nothing but the [error] message. It has no type
    and no [orden], so the documents are no longer all typed, and neither
    the four result tables nor the table of failed documents show it. *)
Theorem X17_failed_retry_past_the_end_is_shown_nowhere
    (svc : Service) (captured : AppState) (index : nat) (prevData : list Doc) :
  (handleRetryFileAt svc captured index prevData).1 = RetryFailed →
  (length prevData ≤ index)%nat →
  let updatedData := (handleRetryFileAt svc captured index prevData).2 in
  ∃ message : string,
    message ≠ "" ∧
    length updatedData = S index ∧
    omap id updatedData = (prevData ++ [{["error" := message]}])%list ∧
    ¬ typesKnown (omap id updatedData) ∧
    (∀ t, tableOf t (omap id updatedData) = tableOf t prevData) ∧
    failedDocs (omap id updatedData) = failedDocs prevData.
Proof.
  intros Ho Hle. cbn zeta.
  pose proof (handleRetryFileAt_cases svc captured index prevData) as H.
  rewrite Ho in H. destruct H as (previous & f & m & _ & _ & _ & Hm & ->).
  rewrite lookup_ge_None_2 by done. cbn [default].
  exists m. split; [done|].
  split; [rewrite arrayAssign_length; lia|].
  rewrite arrayAssign_elements_past_the_end by done.
  split; [by rewrite insert_empty|].
  split.
  { intros Htypes. destruct (Htypes (<["error" := m]> ∅)) as [t Ht].
    - apply elem_of_app. right. by left.
    - rewrite lookup_insert_ne in Ht by done. by rewrite lookup_empty in Ht. }
  split.
  - intros t. unfold tableOf. rewrite List.filter_app. cbn.
    unfold hasType. rewrite lookup_insert_ne by done. rewrite lookup_empty. cbn.
    by rewrite app_nil_r.
  - unfold failedDocs. rewrite List.filter_app. cbn.
    rewrite lookup_insert_ne by done. rewrite lookup_empty. cbn.
    by rewrite app_nil_r.
Qed.

Lemma X17_witness :
  ∃ message : string,
    message ≠ "" ∧
    length (handleRetryFileAt unknownService sampleSession 1 []).2 = 2 ∧
    omap id (handleRetryFileAt unknownService sampleSession 1 []).2 =
      ([] ++ [{["error" := message]}])%list ∧
    ¬ typesKnown (omap id (handleRetryFileAt unknownService sampleSession 1 []).2) ∧
    (∀ t, tableOf t (omap id (handleRetryFileAt unknownService sampleSession 1 []).2) =
          tableOf t []) ∧
    failedDocs (omap id (handleRetryFileAt unknownService sampleSession 1 []).2) =
      failedDocs [].
Proof.
  apply (X17_failed_retry_past_the_end_is_shown_nowhere unknownService sampleSession 1 []).
  - reflexivity.
  - cbn. lia.
Defined.

(** ** Order of the published result *)

Lemma failureRecord_sortKey (h : Date.Host) (file : File) (errorMessage : string) :
  sortKey h (failureRecord file errorMessage) = JS.Infinity.
Proof. reflexivity. Qed.

Lemma StronglySorted_lookup_le {A} (R : A → A → Prop) (l : list A) (i j : nat) (x y : A) :
  StronglySorted R l → i < j → l !! i = Some x → l !! j = Some y → R x y.
Proof.
  intros Hs. revert i j. induction Hs as [|z l Hs IH Hall]; intros i j Hij Hi Hj.
  - done.
  - destruct j as [|j]; [lia|]. destruct i as [|i].
    + injection Hi as <-. rewrite List.Forall_forall in Hall. apply Hall.
      apply list_elem_of_In. by eapply list_elem_of_lookup_2.
    + apply (IH i j); [lia|done..].
Qed.

(** X5. In the published result of a batch every failure record, and more
    generally every document without a parseable date, comes after all the
    dated documents: a document that follows a failure record has itself no
    parseable date. *)
Theorem X5_failures_and_undated_documents_come_last
    (h : Date.Host) (world : nat → Service) (st : AppState) (i j : nat) (di dj : Doc) :
  files st ≠ [] →
  processedData (handleProcessFiles h world st) !! i = Some di →
  processedData (handleProcessFiles h world st) !! j = Some dj →
  i < j →
  (∀ file errorMessage, sortKey h (failureRecord file errorMessage) = JS.Infinity) ∧
  (sortKey h di = JS.Infinity → sortKey h dj = JS.Infinity).
Proof.
  intros Hne Hi Hj Hij. split; [intros; apply failureRecord_sortKey|].
  intros Hinf.
  assert (keyLe (sortKey h) di dj) as Hle.
  { eapply StronglySorted_lookup_le; [|exact Hij|exact Hi|exact Hj].
    rewrite handleProcessFiles_processedData by done.
    apply sort_sorted, sortKey_range. }
  unfold keyLe in Hle. rewrite Hinf in Hle.
  destruct (sortKey_range h dj) as [->|[z Hz]]; [done|]. by rewrite Hz in Hle.
Qed.

Lemma X5_witness :
  (∀ file errorMessage,
     sortKey Date.StrictCalendar (failureRecord file errorMessage) = JS.Infinity) ∧
  (sortKey Date.StrictCalendar
     (processFile sampleService {| name := "scan2.pdf"; content := "S" |}) = JS.Infinity →
   sortKey Date.StrictCalendar (processFile sampleService scan1) = JS.Infinity).
Proof.
  refine (X5_failures_and_undated_documents_come_last Date.StrictCalendar sampleWorld
            (initialState sampleFiles) 0 1 _ _ _ _ _ _);
    [discriminate|reflexivity|reflexivity|lia].
Defined.

(** X16. The comparator [dateA - dateB] handed to [sort] is consistent,
    as [sort] requires, although it yields NaN when both dates are
    unparseable: a document compares equal to itself, swapping the
    arguments reverses the outcome, "not greater" is transitive, and NaN
    arises exactly when both keys are positive infinity, where it counts as
    a tie. *)
Theorem X16_date_comparator_is_consistent (h : Date.Host) (a b c : Doc) :
  JS.SortCompare (compareByDate h) a a = Eq ∧
  JS.SortCompare (compareByDate h) a b = CompOpp (JS.SortCompare (compareByDate h) b a) ∧
  (JS.SortCompare (compareByDate h) a b ≠ Gt →
   JS.SortCompare (compareByDate h) b c ≠ Gt →
   JS.SortCompare (compareByDate h) a c ≠ Gt) ∧
  (compareByDate h a b = JS.NaN ↔
   sortKey h a = JS.Infinity ∧ sortKey h b = JS.Infinity).
Proof.
  unfold JS.SortCompare, compareByDate. fold (sortKey h a) (sortKey h b) (sortKey h c).
  destruct (sortKey_range h a) as [->|[za ->]], (sortKey_range h b) as [->|[zb ->]],
    (sortKey_range h c) as [->|[zc ->]]; cbn; rewrite <- ?Z.compare_sub.
  all: split; [try done; apply Z.compare_refl|].
  all: split; [try done; apply Z.compare_antisym|].
  all: split; [intros H1 H2; try done; exact (Z.le_trans _ _ _ H1 H2)|].
  all: split; [try done|by intros [? ?]].
Qed.

Lemma X16_witness :
  JS.SortCompare (compareByDate Date.StrictCalendar)
    (failureRecord scan1 "x") (failureRecord scan1 "x") = Eq ∧
  JS.SortCompare (compareByDate Date.StrictCalendar)
    (failureRecord scan1 "x") (failureRecord scan3 "y") ≠ Gt.
Proof.
  destruct (X16_date_comparator_is_consistent Date.StrictCalendar
              (failureRecord scan1 "x") (failureRecord scan1 "x")
              (failureRecord scan3 "y")) as (Hrefl & _ & Htrans & _).
  split; [exact Hrefl|]. apply Htrans; discriminate.
Defined.

(** ** Chronological order *)

(** X6. Sorting by the parsed key is sorting by calendar date, across the
    two formats: of two date strings that write real calendar dates, each
    in either pattern, the one writing the earlier day has the strictly
    smaller key, and the keys are equal exactly when the days are the
    same. *)
Theorem X6_keys_follow_the_calendar
    (h : Date.Host) (s1 s2 : string) (c1 c2 : Z * Z * Z) :
  calendarDate s1 = Some c1 → calendarDate s2 = Some c2 →
  validDate c1 = true → validDate c2 = true →
  (earlier c1 c2 → JS.ltb (parseSortableDate h s1) (parseSortableDate h s2) = true) ∧
  (parseSortableDate h s1 = parseSortableDate h s2 ↔ c1 = c2).
Proof.
  intros H1 H2 V1 V2.
  rewrite !parseSortableDate_calendarDate, H1, H2.
  rewrite !validDate_accepts by done.
  assert (∀ a b, validDate a = true → validDate b = true → earlier a b →
                 JS.Fin (Date.utc a.1.1 a.1.2 a.2) ≠ JS.Fin (Date.utc b.1.1 b.1.2 b.2))
    as Hne.
  { intros a b Va Vb He [= E]. pose proof (utc_strictly_monotone a b Va Vb He). lia. }
  split.
  - intros He. cbn. apply Z.ltb_lt. by apply utc_strictly_monotone.
  - split; [|by intros ->].
    intros E. destruct (earlier_trichotomy c1 c2) as [He|[?|He]]; [|done|].
    + by apply Hne in He.
    + symmetry in E. by apply Hne in He.
Qed.

Lemma X6_witness :
  (earlier (2024, 1, 15)%Z (2024, 1, 20)%Z →
   JS.ltb (parseSortableDate Date.StrictCalendar "01/15/24")
          (parseSortableDate Date.StrictCalendar "20-01-24") = true) ∧
  (parseSortableDate Date.StrictCalendar "01/15/24" =
   parseSortableDate Date.StrictCalendar "20-01-24" ↔ (2024, 1, 15)%Z = (2024, 1, 20)%Z).
Proof.
  apply (X6_keys_follow_the_calendar Date.StrictCalendar "01/15/24" "20-01-24");
    reflexivity.
Defined.

(** ** The archive of renamed files *)

Section ZipCalls.

Variable files : list File.

Local Abbreviation zipCall :=
  (λ doc : Doc,
     if notFailed doc then
       match findOriginalFile files doc with
       | Some originalFile => Some (doc !! "archivo", originalFile)
       | None => None
       end
     else None).

Local Abbreviation fromDocument :=
  (λ (call : option string * File) (doc : Doc),
     call.1 = doc !! "archivo" ∧ call.2 ∈ files ∧
     doc !! "originalFileName" = Some (name call.2)).

Lemma zip_calls_sound (docs : list Doc) (call : option string * File) :
  call ∈ omap zipCall docs → ∃ doc, doc ∈ docs ∧ fromDocument call doc.
Proof.
  rewrite list_elem_of_omap. intros (doc & Hdoc & Hcall). exists doc. split; [done|].
  destruct (notFailed doc); [|done].
  destruct (findOriginalFile files doc) as [f|] eqn:Hf; [|done].
  injection Hcall as <-. apply findOriginalFile_name in Hf as [Hin Hn]. by repeat split.
Qed.

Lemma zip_calls_length (docs : list Doc) :
  (length (omap zipCall docs) ≤ length docs)%nat.
Proof.
  induction docs as [|d docs IH]; [done|]. cbn.
  destruct (notFailed d); [destruct (findOriginalFile files d)|]; cbn; lia.
Qed.

Lemma zip_calls_Forall2 (docs : list Doc) :
  (∀ d, d ∈ docs → notFailed d = true ∧ fileSelected files d) →
  Forall2 fromDocument (omap zipCall docs) docs.
Proof.
  induction docs as [|d docs IH]; intros Hall; [constructor|].
  destruct (Hall d) as (Hnf & Hsel); [by left|].
  destruct (findOriginalFile files d) as [f|] eqn:Hf;
    [|by apply findOriginalFile_None in Hf].
  cbn. rewrite Hnf, Hf. constructor.
  - apply findOriginalFile_name in Hf as [Hin Hn]. by repeat split.
  - apply IH. intros x Hx. apply Hall. by right.
Qed.

Lemma zip_calls_names (calls : list (option string * File)) (docs : list Doc) :
  Forall2 fromDocument calls docs → calls.*1 = (.!! "archivo") <$> docs.
Proof.
  induction 1 as [|call doc calls docs (Hn & _) _ IH]; [done|]. cbn. by rewrite Hn, IH.
Qed.

End ZipCalls.

(** X14. [handleDownloadZip] does nothing when the table of the document
    type is empty. Otherwise every call [zip.file(name, file)] it makes
    comes from a document of the table: the name is the document's
    [archivo] and the file is a selected file whose name is the document's
    [originalFileName]; a document that names no selected file is passed
    over. When every document of the table names a selected file, there is
    one call per document, in the order of the table; and when moreover no
    two documents of the table have the same [archivo], no two calls have
    the same name, so that no call replaces the entry of another. *)
Theorem X14_archive_calls_follow_the_table (st : AppState) (docType : DocumentType) :
  let table := tableOf docType (processedData st) in
  let fromDocument (call : option string * File) (doc : Doc) :=
    call.1 = doc !! "archivo" ∧ call.2 ∈ files st ∧
    doc !! "originalFileName" = Some (name call.2) in
  match handleDownloadZip st docType with
  | None => table = []
  | Some calls =>
      table ≠ [] ∧
      (length calls ≤ length table)%nat ∧
      (∀ call, call ∈ calls → ∃ doc, doc ∈ table ∧ fromDocument call doc) ∧
      (Forall (fileSelected (files st)) table →
       Forall2 fromDocument calls table ∧
       (NoDup ((.!! "archivo") <$> table) → NoDup calls.*1))
  end.
Proof.
  cbn zeta. unfold handleDownloadZip. fold (tableOf docType (processedData st)).
  destruct (Nat.eqb_spec (length (tableOf docType (processedData st))) 0) as [H0|Hn0];
    [by apply nil_length_inv|].
  split; [intros E; by rewrite E in Hn0|].
  split; [apply zip_calls_length|].
  split; [apply zip_calls_sound|].
  intros Hsel.
  assert (Forall2 (λ (call : option string * File) (doc : Doc),
                     call.1 = doc !! "archivo" ∧ call.2 ∈ files st ∧
                     doc !! "originalFileName" = Some (name call.2))
            (omap (λ doc : Doc,
                     if notFailed doc then
                       match findOriginalFile (files st) doc with
                       | Some originalFile => Some (doc !! "archivo", originalFile)
                       | None => None
                       end
                     else None) (tableOf docType (processedData st)))
            (tableOf docType (processedData st))) as Hall.
  { apply zip_calls_Forall2. intros d Hd. split.
    - unfold tableOf in Hd. apply elem_of_filter_bool in Hd as [_ Hp].
      by apply andb_true_iff in Hp as [_ Hnf].
    - by eapply Forall_forall in Hsel. }
  split; [done|].
  intros Hnodup. by rewrite (zip_calls_names _ _ _ Hall).
Qed.

Lemma X14_witness :
  ∃ calls,
    handleDownloadZip sampleSession workOrder = Some calls ∧
    Forall2 (λ (call : option string * File) (doc : Doc),
               call.1 = doc !! "archivo" ∧ call.2 ∈ files sampleSession ∧
               doc !! "originalFileName" = Some (name call.2))
      calls (tableOf workOrder (processedData sampleSession)) ∧
    NoDup calls.*1.
Proof.
  pose proof (X14_archive_calls_follow_the_table sampleSession workOrder) as H.
  cbn zeta in H.
  destruct (handleDownloadZip sampleSession workOrder) as [calls|] eqn:Hcalls;
    [|discriminate Hcalls].
  exists calls. split; [reflexivity|].
  destruct H as (_ & _ & _ & H).
  destruct H as [Hall Hnodup].
  - vm_compute. repeat constructor. exists scan1. split; [by left|reflexivity].
  - split; [exact Hall|]. apply Hnodup. vm_compute. repeat constructor.
    intros Hin. by apply elem_of_nil in Hin.
Defined.

(** ** The field editor, whatever render its callback comes from *)



(** ** Summary and dashboard *)

Lemma filter_length_Permutation {A} (p : A → bool) (l l' : list A) :
  l ≡ₚ l' → length (List.filter p l) = length (List.filter p l').
Proof.
  induction 1 as [|x l l' _ IH|x y l|l l' l'' _ IH1 _ IH2]; cbn.
  - done.
  - destruct (p x); cbn; by rewrite IH.
  - by destruct (p x), (p y).
  - by rewrite IH1.
Qed.

Lemma filter_length_split {A} (p : A → bool) (l : list A) :
  length (List.filter p l) + length (List.filter (λ x, negb (p x)) l) = length l.
Proof.
  induction l as [|x l IH]; [done|]. cbn. destruct (p x); cbn; lia.
Qed.

Lemma filter_filter_andb {A} (p q : A → bool) (l : list A) :
  List.filter p (List.filter q l) = List.filter (λ x, p x && q x) l.
Proof.
  induction l as [|x l IH]; [done|]. cbn.
  destruct (q x); cbn; rewrite ?andb_true_r, ?andb_false_r; [|done].
  destruct (p x); by rewrite IH.
Qed.

Lemma failedDocs_length (data : list Doc) :
  length (List.filter notFailed data) + length (failedDocs data) = length data.
Proof.
  rewrite <- (filter_length_split notFailed data). f_equal. unfold failedDocs.
  f_equal. induction data as [|d data IH]; [done|]. cbn. rewrite IH.
  unfold notFailed. by rewrite negb_involutive.
Qed.

Lemma sort_insert_ext {A} (c1 c2 : A → A → JS.number) (x : A) (l : list A) :
  (∀ a b, JS.SortCompare c1 a b = JS.SortCompare c2 a b) →
  JS.sort_insert c1 x l = JS.sort_insert c2 x l.
Proof.
  intros Hc. induction l as [|y l IH]; [done|]. cbn. rewrite Hc, IH. done.
Qed.

Lemma sort_ext {A} (c1 c2 : A → A → JS.number) (l : list A) :
  (∀ a b, JS.SortCompare c1 a b = JS.SortCompare c2 a b) →
  JS.sort c1 l = JS.sort c2 l.
Proof.
  intros Hc. induction l as [|x l IH]; [done|]. cbn.
  by rewrite IH, (sort_insert_ext c1 c2).
Qed.

Section DashboardFacts.

Variables (trim toUpperCase : string → string).
Variable entries : gmap string nat → list (string * nat).
Hypothesis entries_enumerate : ∀ m, entries m ≡ₚ map_to_list m.

Local Abbreviation stats := (stats trim toUpperCase entries).
Local Abbreviation categoryOf := (categoryOf trim toUpperCase).
Local Abbreviation countCategories := (countCategories trim toUpperCase).

Lemma stats_counts (data : list Doc) :
  Dashboard.total (stats data) = length data ∧
  Dashboard.successful (stats data) = length (List.filter notFailed data) ∧
  Dashboard.failed (stats data) = length (failedDocs data) ∧
  Dashboard.workOrders (stats data) = length (tableOf workOrder data) ∧
  Dashboard.supplyRequests (stats data) = length (tableOf supplyRequest data) ∧
  Dashboard.uninstallations (stats data) = length (tableOf uninstallation data) ∧
  Dashboard.installations (stats data) = length (tableOf installation data).
Proof.
  unfold stats, tableOf. cbn. by rewrite !filter_filter_andb.
Qed.

(** One more work order adds one to the sum of the counts. *)
Lemma count_step_sum (acc : gmap string nat) (k : string) :
  sum_list_with snd (map_to_list (<[k := (default 0 (acc !! k) + 1)%nat]> acc)) =
  S (sum_list_with snd (map_to_list acc)).
Proof.
  destruct (acc !! k) as [v|] eqn:Hk; cbn.
  - rewrite <- (insert_delete_eq acc k (v + 1)%nat).
    rewrite map_to_list_insert by apply lookup_delete_eq.
    rewrite <- (insert_id acc k v Hk) at 2.
    rewrite <- (insert_delete_eq acc k v).
    rewrite map_to_list_insert by apply lookup_delete_eq. cbn. lia.
  - rewrite map_to_list_insert by done. cbn. lia.
Qed.

Lemma count_step_positive (acc : gmap string nat) (k : string) :
  (∀ c n, acc !! c = Some n → (1 ≤ n)%nat) →
  ∀ c n, <[k := (default 0 (acc !! k) + 1)%nat]> acc !! c = Some n → (1 ≤ n)%nat.
Proof.
  intros Hacc c n. destruct (decide (k = c)) as [->|Hne].
  - rewrite lookup_insert_eq. intros [= <-]. lia.
  - rewrite lookup_insert_ne by done. apply Hacc.
Qed.

Lemma count_fold (workOrders : list Doc) (acc : gmap string nat) :
  (∀ c n, acc !! c = Some n → (1 ≤ n)%nat) →
  let m := foldl (λ (acc : gmap string nat) (doc : Doc),
                    <[categoryOf doc := (default 0 (acc !! categoryOf doc) + 1)%nat]> acc)
                 acc workOrders in
  sum_list_with snd (map_to_list m) =
    sum_list_with snd (map_to_list acc) + length workOrders ∧
  ∀ c n, m !! c = Some n → (1 ≤ n)%nat.
Proof.
  revert acc. induction workOrders as [|doc rest IH]; intros acc Hacc; cbn.
  - split; [lia|done].
  - destruct (IH _ (count_step_positive acc (categoryOf doc) Hacc)) as [Hsum Hpos].
    split; [|done]. rewrite Hsum, count_step_sum. lia.
Qed.

Lemma countCategories_facts (workOrders : list Doc) :
  sum_list_with snd (map_to_list (countCategories workOrders)) = length workOrders ∧
  ∀ c n, countCategories workOrders !! c = Some n → (1 ≤ n)%nat.
Proof.
  destruct (count_fold workOrders ∅) as [Hsum Hpos]; [done|].
  split; [|done]. unfold countCategories. rewrite Hsum. by rewrite map_to_list_empty.
Qed.

Lemma sortedCategories_facts (data : list Doc) :
  let key := λ e : string * nat, JS.Fin (- Z.of_nat e.2) in
  Dashboard.categories (stats data) ≡ₚ
    map_to_list (countCategories (List.filter (hasType workOrder) (List.filter notFailed data))) ∧
  StronglySorted (keyLe key) (Dashboard.categories (stats data)).
Proof.
  intros key. unfold stats. cbn [Dashboard.categories].
  rewrite (sort_ext _ (keyDifference key)).
  - split; [|apply sort_sorted; intros x; right; by eexists].
    by rewrite sort_Permutation, entries_enumerate.
  - intros a b. unfold JS.SortCompare, keyDifference, key. cbn.
    rewrite <- !Z.compare_sub. rewrite Z.compare_opp. done.
Qed.

End DashboardFacts.

(** X7. After a batch the two numbers of the summary toast add up to the
    number of input files, and they are the numbers the dashboard shows
    for the published result: successes are the documents whose [orden] is
    not the failure marker, failures those whose [orden] is the marker. *)
Theorem X7_summary_adds_up_and_matches_dashboard
    (h : Date.Host) (world : nat → Service) (st : AppState)
    (trim toUpperCase : string → string)
    (entries : gmap string nat → list (string * nat)) :
  files st ≠ [] →
  let st' := handleProcessFiles h world st in
  let dashboard := stats trim toUpperCase entries (processedData st') in
  ∃ successCount failCount,
    summaryOf st' = Some (successCount, failCount) ∧
    successCount + failCount = length (files st) ∧
    Dashboard.total dashboard = length (files st) ∧
    Dashboard.successful dashboard = successCount ∧
    Dashboard.failed dashboard = failCount.
Proof.
  intros Hne st' dashboard.
  pose proof (handleProcessFiles_Permutation h world st Hne) as Hperm.
  fold st' in Hperm.
  destruct (stats_counts trim toUpperCase entries (processedData st'))
    as (Htot & Hsucc & Hfail & _).
  fold dashboard in Htot, Hsucc, Hfail.
  pose proof (failedDocs_length (processedData st')) as Hsplit.
  pose proof (filter_length_Permutation notFailed _ _ Hperm) as Hnf.
  pose proof (Permutation_length Hperm) as Hlen.
  rewrite processLoop_length in Hlen.
  exists (length (List.filter notFailed (processLoop world 0 (files st) []))),
    (length (processLoop world 0 (files st) []) -
     length (List.filter notFailed (processLoop world 0 (files st) []))).
  split.
  { subst st'. unfold handleProcessFiles, summaryOf.
    destruct (files st) as [|f fs]; [done|]. reflexivity. }
  rewrite processLoop_length.
  pose proof (List.filter_length_le notFailed (processLoop world 0 (files st) [])) as Hle.
  rewrite processLoop_length in Hle.
  repeat split; lia.
Qed.

Lemma X7_witness :
  ∃ successCount failCount,
    summaryOf sampleSession = Some (successCount, failCount) ∧
    successCount + failCount = 2 ∧
    Dashboard.total (stats id id map_to_list (processedData sampleSession)) = 2 ∧
    Dashboard.successful (stats id id map_to_list (processedData sampleSession)) = successCount ∧
    Dashboard.failed (stats id id map_to_list (processedData sampleSession)) = failCount.
Proof.
  refine (X7_summary_adds_up_and_matches_dashboard Date.StrictCalendar sampleWorld
            (handleDrop sampleUploads (initialState [])).1 id id map_to_list _).
  discriminate.
Defined.




Lemma StronglySorted_weaken {A} (R R' : A → A → Prop) (l : list A) :
  (∀ x y, R x y → R' x y) → StronglySorted R l → StronglySorted R' l.
Proof.
  intros Himp. induction 1 as [|x l _ IH Hall]; constructor; [done|].
  eapply List.Forall_impl; [|exact Hall]. intros y. apply Himp.
Qed.

(** X9. Whatever order the engine lists the counted categories in, the
    category chart is sound: the counts of the categories add up to the
    number of work orders shown, no category is listed twice, every count
    is at least 1 and at most [maxCategoryCount] (so a bar is never wider
    than the full width and its width is never a division by zero), the
    categories are listed by decreasing count, and [maxCategoryCount] is 0
    exactly when there is no work order. *)
Theorem X9_category_chart_is_sound
    (trim toUpperCase : string → string)
    (entries : gmap string nat → list (string * nat)) (data : list Doc) :
  (∀ m, entries m ≡ₚ map_to_list m) →
  let dashboard := stats trim toUpperCase entries data in
  sum_list_with snd (Dashboard.categories dashboard) = Dashboard.workOrders dashboard ∧
  NoDup (Dashboard.categories dashboard).*1 ∧
  (∀ c n, (c, n) ∈ Dashboard.categories dashboard →
          (1 ≤ n ∧ n ≤ Dashboard.maxCategoryCount dashboard)%nat) ∧
  StronglySorted (λ x y : string * nat, (y.2 ≤ x.2)%nat) (Dashboard.categories dashboard) ∧
  (Dashboard.maxCategoryCount dashboard = 0%nat ↔ Dashboard.workOrders dashboard = 0%nat).
Proof.
  intros Henum dashboard.
  destruct (sortedCategories_facts trim toUpperCase entries Henum data) as [Hperm Hsorted].
  fold dashboard in Hperm, Hsorted.
  set (wos := List.filter (hasType workOrder) (List.filter notFailed data)) in *.
  destruct (countCategories_facts trim toUpperCase wos) as [Hsum Hpos].
  assert (Dashboard.workOrders dashboard = length wos) as Hwo by reflexivity.
  assert (Dashboard.maxCategoryCount dashboard =
          match Dashboard.categories dashboard with e :: _ => e.2 | [] => 0%nat end)
    as Hmax by reflexivity.
  assert (∀ c n, (c, n) ∈ Dashboard.categories dashboard → (1 ≤ n)%nat) as Hone.
  { intros c n Hin. rewrite Hperm in Hin. apply elem_of_map_to_list in Hin. by eapply Hpos. }
  assert (sum_list_with snd (Dashboard.categories dashboard) = length wos) as Hsum'
    by (by rewrite Hperm).
  assert (StronglySorted (λ x y : string * nat, (y.2 ≤ x.2)%nat)
            (Dashboard.categories dashboard)) as Hdesc.
  { eapply StronglySorted_weaken; [|exact Hsorted]. intros x y. unfold keyLe. cbn.
    rewrite Z.leb_le. lia. }
  split; [by rewrite Hwo|]. split.
  { rewrite Hperm. apply NoDup_fst_map_to_list. }
  split.
  { intros c n Hin. split; [by eapply Hone|]. rewrite Hmax.
    destruct (Dashboard.categories dashboard) as [|e rest]; [by apply elem_of_nil in Hin|].
    apply elem_of_cons in Hin as [Heq|Hin]; [by rewrite <- Heq|].
    apply StronglySorted_inv in Hdesc as [_ Hall].
    rewrite List.Forall_forall in Hall. apply (Hall (c, n)). by apply list_elem_of_In. }
  split; [done|].
  rewrite Hmax, Hwo, <- Hsum'.
  destruct (Dashboard.categories dashboard) as [|[c n] rest]; [done|]. cbn.
  specialize (Hone c n (ltac:(by left))). lia.
Qed.

Lemma X9_witness :
  let dashboard := stats id id map_to_list (processedData sampleSession) in
  sum_list_with snd (Dashboard.categories dashboard) = Dashboard.workOrders dashboard ∧
  NoDup (Dashboard.categories dashboard).*1 ∧
  (∀ c n, (c, n) ∈ Dashboard.categories dashboard →
          (1 ≤ n ∧ n ≤ Dashboard.maxCategoryCount dashboard)%nat) ∧
  StronglySorted (λ x y : string * nat, (y.2 ≤ x.2)%nat) (Dashboard.categories dashboard) ∧
  (Dashboard.maxCategoryCount dashboard = 0%nat ↔ Dashboard.workOrders dashboard = 0%nat).
Proof.
  apply (X9_category_chart_is_sound id id map_to_list (processedData sampleSession)).
  intros m. reflexivity.
Defined.

(** ** The table copied to the clipboard *)

Lemma string_app_cons_assoc (cur : string) (x : ascii) (s : string) :
  (cur +:+ String x "") +:+ s = cur +:+ String x s.
Proof.
  induction cur as [|y cur IH]; [done|].
  change ((String y cur +:+ String x "") +:+ s)
    with (String y ((cur +:+ String x "") +:+ s)).
  change (String y cur +:+ String x s) with (String y (cur +:+ String x s)).
  by rewrite IH.
Qed.

Lemma string_app_empty_r (s : string) : s +:+ "" = s.
Proof.
  induction s as [|x s IH]; [done|].
  change (String x s +:+ "") with (String x (s +:+ "")). by rewrite IH.
Qed.

Lemma split_from_lacks (c : ascii) (cur s : string) :
  lacks c s = true → JS.split_from c cur s = [cur +:+ s].
Proof.
  revert cur. induction s as [|x s IH]; intros cur Hs; cbn.
  - by rewrite string_app_empty_r.
  - cbn in Hs. apply andb_true_iff in Hs as [Hx Hs]. apply negb_true_iff in Hx.
    rewrite Hx, IH by done. by rewrite string_app_cons_assoc.
Qed.

Lemma split_from_app (c : ascii) (cur s rest : string) :
  lacks c s = true →
  JS.split_from c cur (s +:+ String c rest) = (cur +:+ s) :: JS.split_from c "" rest.
Proof.
  revert cur. induction s as [|x s IH]; intros cur Hs.
  - change ("" +:+ String c rest) with (String c rest). cbn.
    rewrite Ascii.eqb_refl. by rewrite string_app_empty_r.
  - change (String x s +:+ String c rest) with (String x (s +:+ String c rest)). cbn.
    cbn in Hs. apply andb_true_iff in Hs as [Hx Hs]. apply negb_true_iff in Hx.
    rewrite Hx, IH by done. by rewrite string_app_cons_assoc.
Qed.

Lemma lacks_app (c : ascii) (s s' : string) :
  lacks c (s +:+ s') = lacks c s && lacks c s'.
Proof.
  induction s as [|x s IH]; [done|].
  change (String x s +:+ s') with (String x (s +:+ s')). cbn.
  by rewrite IH, andb_assoc.
Qed.

Lemma join_cons (sep : string) (x y : option string) (items : list (option string)) :
  join sep (x :: y :: items) = default "" x +:+ sep +:+ join sep (y :: items).
Proof. reflexivity. Qed.

(** Splitting a joined list gives the list back when no item contains the
    separator. *)
Lemma split_join (c : ascii) (items : list (option string)) :
  items ≠ [] →
  Forall (λ x, lacks c (default "" x) = true) items →
  JS.split c (join (String c "") items) = map (default "") items.
Proof.
  intros Hne Hall. unfold JS.split.
  induction items as [|x items IH]; [done|].
  apply Forall_cons in Hall as [Hx Hall].
  destruct items as [|y items].
  - cbn. by rewrite split_from_lacks.
  - rewrite join_cons.
    change (String c "" +:+ join (String c "") (y :: items))
      with (String c (join (String c "") (y :: items))).
    rewrite split_from_app by done. cbn [map]. f_equal. by apply IH.
Qed.

Lemma lacks_join (c : ascii) (sep : string) (items : list (option string)) :
  lacks c sep = true →
  Forall (λ x, lacks c (default "" x) = true) items →
  lacks c (join sep items) = true.
Proof.
  intros Hsep Hall. induction items as [|x items IH]; [done|].
  apply Forall_cons in Hall as [Hx Hall].
  destruct items as [|y items]; [done|].
  rewrite join_cons, !lacks_app, Hx, Hsep. cbn. by apply IH.
Qed.

Lemma handleCopyToClipboard_columns (t : DocumentType) (data : list Doc) :
  handleCopyToClipboard (Some t) data =
    Some (join NEWLINE
            (map (λ d : Doc, Some (join TAB (map (λ f, d !! f) (clipboardColumns t))))
                 (List.filter (hasType t) data))).
Proof. by destruct t. Qed.

(** X10. The text copied from the preview modal has one line per document
    of the modal's type, whose cells are the document's columns in the
    order of the table. When there is at least one such document and no
    cell contains a tab or a line feed, splitting the text at line feeds
    and each line at tabs gives back exactly the cells; nothing is copied
    when the modal has no document type. *)
Theorem X10_clipboard_table_round_trip (t : DocumentType) (data : list Doc) :
  let rows := List.filter (hasType t) data in
  rows ≠ [] →
  (∀ d f, d ∈ rows → f ∈ clipboardColumns t →
          lacks "009" (default "" (d !! f)) = true ∧
          lacks "010" (default "" (d !! f)) = true) →
  handleCopyToClipboard None data = None ∧
  ∃ tsvContent,
    handleCopyToClipboard (Some t) data = Some tsvContent ∧
    map (JS.split "009") (JS.split "010" tsvContent) =
      map (λ d : Doc, map (λ f, default "" (d !! f)) (clipboardColumns t)) rows.
Proof.
  intros rows Hne Hcells. split; [done|].
  eexists. split; [apply handleCopyToClipboard_columns|]. fold rows.
  assert (∀ d, d ∈ rows →
            Forall (λ x, lacks "009" (default "" x) = true)
              (map (λ f, d !! f) (clipboardColumns t)) ∧
            Forall (λ x, lacks "010" (default "" x) = true)
              (map (λ f, d !! f) (clipboardColumns t))) as Hrow.
  { intros d Hd. split; apply List.Forall_forall; intros x Hx;
      apply List.in_map_iff in Hx as (f & <- & Hf); apply list_elem_of_In in Hf;
      by apply (Hcells d f). }
  unfold NEWLINE. rewrite (split_join "010"%char).
  - rewrite !List.map_map. apply List.map_ext_in. intros d Hd. cbv beta.
    change (default "" (Some ?x)) with x.
    apply list_elem_of_In in Hd. destruct (Hrow d Hd) as [Htab _].
    unfold TAB. rewrite (split_join "009"%char); [|by destruct t|done].
    by rewrite List.map_map.
  - destruct rows; [done|discriminate].
  - apply List.Forall_forall. intros x Hx.
    apply List.in_map_iff in Hx as (d & <- & Hd). apply list_elem_of_In in Hd.
    cbn. apply lacks_join; [done|]. by apply Hrow.
Qed.

Lemma X10_witness :
  handleCopyToClipboard None (processedData sampleSession) = None ∧
  ∃ tsvContent,
    handleCopyToClipboard (Some workOrder) (processedData sampleSession) = Some tsvContent ∧
    map (JS.split "009") (JS.split "010" tsvContent) =
      map (λ d : Doc, map (λ f, default "" (d !! f)) (clipboardColumns workOrder))
          (List.filter (hasType workOrder) (processedData sampleSession)).
Proof.
  apply (X10_clipboard_table_round_trip workOrder (processedData sampleSession)).
  - discriminate.
  - intros d f Hd Hf.
    repeat (apply elem_of_cons in Hd as [->|Hd]);
      [| |by apply elem_of_nil in Hd];
      repeat (apply elem_of_cons in Hf as [->|Hf]; [by split|]);
      by apply elem_of_nil in Hf.
Defined.

(** ** The spreadsheet export *)

Lemma omap_take_nil {A B} (f : A → option B) (l : list A) (k : nat) :
  omap f l = [] → omap f (take k l) = [].
Proof.
  intros Hnil. rewrite <- (take_drop k l), omap_app in Hnil.
  by apply app_eq_nil in Hnil as [-> _].
Qed.

Lemma omap_take_prefix {A B} (f : A → option B) (l : list A) (k : nat) :
  omap f (take k l) `prefix_of` omap f l.
Proof. exists (omap f (drop k l)). by rewrite <- omap_app, take_drop. Qed.

(** The calls that returned are the first [k] of the calls to make: all of
    them when none threw, and those before the one that threw. *)
Lemma perform_spec (xlsx : Xlsx) (calls done : list XlsxCall) :
  ∃ k,
    (perform xlsx done calls).1 = (done ++ take k calls)%list ∧
    match (perform xlsx done calls).2 with
    | Ok _ => (length calls ≤ k)%nat
    | Throw message =>
        ∃ call, calls !! k = Some call ∧
                xlsx (done ++ take k calls)%list call = Throw message
    end.
Proof.
  revert done. induction calls as [|c calls IH]; intros done.
  - exists 0. cbn. by rewrite app_nil_r.
  - cbn [perform]. destruct (xlsx done c) as [[]|message] eqn:Hc.
    + destruct (IH (done ++ [c])%list) as (k & Hdone & Hres). exists (S k). cbn [take].
      rewrite Hdone, <- app_assoc. split; [done|].
      destruct ((perform xlsx (done ++ [c]) calls).2) as [[]|m].
      * cbn. lia.
      * destruct Hres as (call & Hcall & Hthrow). exists call.
        by rewrite <- app_assoc in Hthrow.
    + exists 0. cbn. rewrite app_nil_r. split; [done|]. by exists c.
Qed.

Lemma perform_returns (xlsx : Xlsx) (calls done : list XlsxCall) :
  (∀ done call, xlsx done call = Ok ()) →
  perform xlsx done calls = ((done ++ calls)%list, Ok ()).
Proof.
  intros Hok. revert done. induction calls as [|c calls IH]; intros done.
  - cbn. by rewrite app_nil_r.
  - cbn [perform]. rewrite Hok, IH. by rewrite <- app_assoc.
Qed.

(** The export as a run of the calls of its code against the library. *)
Lemma exportToExcel_run (xlsx : Xlsx) (data : ExportData)
    (oneDriveUrls : option (DocumentType → string)) :
  let attempted := exportToExcel_calls data oneDriveUrls in
  (exportToExcel xlsx data oneDriveUrls = attempted) ∨
  (∃ k message done call,
     (k < length attempted.1)%nat ∧
     xlsx done call = Throw message ∧
     exportToExcel xlsx data oneDriveUrls = (take k attempted.1, Throw message)).
Proof.
  cbn zeta. unfold exportToExcel.
  destruct (perform_spec xlsx (exportToExcel_calls data oneDriveUrls).1 [])
    as (k & Hdone & Hres).
  destruct (perform xlsx [] (exportToExcel_calls data oneDriveUrls).1) as [done res].
  cbn [fst snd] in *. subst done.
  destruct res as [[]|message].
  - left. rewrite take_ge by done. by destruct (exportToExcel_calls data oneDriveUrls).
  - right. destruct Hres as (call & Hcall & Hthrow).
    exists k, message, (take k (exportToExcel_calls data oneDriveUrls).1), call.
    split; [by eapply lookup_lt_Some|]. by split.
Qed.

(** With a library none of whose calls throws, the export makes all the
    calls of its code and ends as its code ends. *)
Lemma exportToExcel_library_returns (xlsx : Xlsx) (data : ExportData)
    (oneDriveUrls : option (DocumentType → string)) :
  (∀ done call, xlsx done call = Ok ()) →
  exportToExcel xlsx data oneDriveUrls = exportToExcel_calls data oneDriveUrls.
Proof.
  intros Hok. unfold exportToExcel. rewrite perform_returns by done.
  by destruct (exportToExcel_calls data oneDriveUrls).
Qed.

Lemma exportToExcel_calls_without_urls (data : ExportData) :
  existsb (λ arr : list Doc, (0 <? length arr)%nat)
    [workOrders data; supplyRequests data; uninstallations data; installations data] = true →
  (∃ message, (exportToExcel_calls data None).2 = Throw message) ∧
  appendedSheets (exportToExcel_calls data None).1 = [] ∧
  writtenFiles (exportToExcel_calls data None).1 = [].
Proof.
  unfold exportToExcel_calls, sheetBlock.
  destruct (workOrders data) as [|w ws], (supplyRequests data) as [|s ss],
    (uninstallations data) as [|u us], (installations data) as [|n ns];
    cbn; intros Hsome; try discriminate Hsome; by eauto.
Qed.

Lemma exportToExcel_calls_with_urls (data : ExportData) (urls : DocumentType → string) :
  let sheets :=
    List.filter (λ s : list Doc * string, (0 <? length s.1)%nat)
      [ (workOrders data, "Ã“rdenes de Trabajo");
        (supplyRequests data, "Pedidos de Suministro");
        (uninstallations data, "Desinstalaciones");
        (installations data, "Instalaciones") ] in
  ∃ body,
    exportToExcel_calls data (Some urls) =
      ((body ++ [writeFile "Documentos_Procesados.xlsx"])%list, Ok ()) ∧
    appendedSheets body = map snd sheets ∧
    sheetRows body = map (λ s, length s.1) sheets ∧
    writtenFiles body = [].
Proof.
  cbn zeta. exists (removelast (exportToExcel_calls data (Some urls)).1).
  unfold exportToExcel_calls, sheetBlock.
  destruct (workOrders data) as [|w ws], (supplyRequests data) as [|s ss],
    (uninstallations data) as [|u us], (installations data) as [|n ns];
    cbn; rewrite ?List.length_map; done.
Qed.

(** X11. Called with the document lists and the OneDrive addresses, the
    export ends as the library lets it: it throws only what a call of the
    library throws, and does not throw when none does. When it returns it
    has built one sheet for each non-empty list and none for an empty one,
    in the fixed order work orders, supply requests, uninstallations,
    installations, each with one row per document, and its last action was
    to write the single file Documentos_Procesados.xlsx. When it throws,
    no file was written, and the sheets appended so far are the first of
    those sheets. *)
Theorem X11_export_builds_one_sheet_per_non_empty_list
    (xlsx : Xlsx) (data : ExportData) (urls : DocumentType → string) :
  let sheets :=
    List.filter (λ s : list Doc * string, (0 <? length s.1)%nat)
      [ (workOrders data, "Ã“rdenes de Trabajo");
        (supplyRequests data, "Pedidos de Suministro");
        (uninstallations data, "Desinstalaciones");
        (installations data, "Instalaciones") ] in
  let outcome := exportToExcel xlsx data (Some urls) in
  (outcome.2 = Ok () →
   appendedSheets outcome.1 = map snd sheets ∧
   sheetRows outcome.1 = map (λ s, length s.1) sheets ∧
   writtenFiles outcome.1 = ["Documentos_Procesados.xlsx"] ∧
   last outcome.1 = Some (writeFile "Documentos_Procesados.xlsx")) ∧
  (∀ message,
     outcome.2 = Throw message →
     (∃ done call, xlsx done call = Throw message) ∧
     writtenFiles outcome.1 = [] ∧
     appendedSheets outcome.1 `prefix_of` map snd sheets) ∧
  ((∀ done call, xlsx done call = Ok ()) → outcome.2 = Ok ()).
Proof.
  cbn zeta.
  destruct (exportToExcel_calls_with_urls data urls) as (body & Hcalls & Happ & Hrows & Hw).
  cbn zeta in Happ, Hrows.
  pose proof (exportToExcel_run xlsx data (Some urls)) as Hrun. cbn zeta in Hrun.
  rewrite Hcalls in Hrun. cbn [fst snd] in Hrun.
  split; [|split].
  - intros Hok. destruct Hrun as [Hrun|(k & m & done & call & _ & _ & Hrun)];
      rewrite Hrun in *; [|discriminate Hok]. cbn [fst snd].
    unfold appendedSheets, sheetRows, writtenFiles in *.
    rewrite !omap_app, Happ, Hrows, Hw, last_snoc. cbn. by rewrite !app_nil_r.
  - intros message Hthrow.
    destruct Hrun as [Hrun|(k & m & done & call & Hk & Hcall & Hrun)];
      rewrite Hrun in *; [discriminate Hthrow|]. cbn [fst snd] in *.
    injection Hthrow as ->. split; [by eauto|].
    rewrite length_app in Hk. cbn in Hk.
    rewrite take_app_le by lia. split.
    + by apply omap_take_nil.
    + rewrite <- Happ. apply omap_take_prefix.
  - intros Hok. unfold exportToExcel. rewrite perform_returns by done.
    by rewrite Hcalls.
Qed.

Lemma X11_witness :
  (∃ done call, readOnlyXlsx done call = Throw "cannot save file") ∧
  writtenFiles
    (exportToExcel readOnlyXlsx
       {| workOrders := tableOf workOrder (processedData sampleSession);
          supplyRequests := []; uninstallations := []; installations := [] |}
       (Some (λ _, "https://example.org/"))).1 = [] ∧
  appendedSheets
    (exportToExcel readOnlyXlsx
       {| workOrders := tableOf workOrder (processedData sampleSession);
          supplyRequests := []; uninstallations := []; installations := [] |}
       (Some (λ _, "https://example.org/"))).1
    `prefix_of` ["Ã“rdenes de Trabajo"].
Proof.
  apply (proj1 (proj2 (X11_export_builds_one_sheet_per_non_empty_list readOnlyXlsx
           {| workOrders := tableOf workOrder (processedData sampleSession);
              supplyRequests := []; uninstallations := []; installations := [] |}
           (λ _, "https://example.org/")))).
  reflexivity.
Defined.

(** X12. [handleExportAll] calls the export exactly when some result table
    is not empty, and passes it the four lists without the OneDrive
    addresses the export reads. Every such call therefore throws, whatever
    the library does, while the first non-empty sheet is prepared: no
    sheet is appended to the workbook and no file is written. *)
Theorem X12_export_all_throws_before_writing (xlsx : Xlsx) (st : AppState) :
  (exportAllCalls xlsx st = None ↔
   tableOf workOrder (processedData st) = [] ∧
   tableOf supplyRequest (processedData st) = [] ∧
   tableOf uninstallation (processedData st) = [] ∧
   tableOf installation (processedData st) = []) ∧
  (∀ outcome,
     exportAllCalls xlsx st = Some outcome →
     (∃ message, outcome.2 = Throw message) ∧
     appendedSheets outcome.1 = [] ∧
     writtenFiles outcome.1 = []).
Proof.
  unfold exportAllCalls, handleExportAll.
  fold (tableOf workOrder (processedData st)) (tableOf supplyRequest (processedData st))
    (tableOf uninstallation (processedData st)) (tableOf installation (processedData st)).
  cbn [workOrders supplyRequests uninstallations installations].
  destruct (existsb _ _) eqn:Hsome.
  - split.
    + split; [done|]. intros (H1 & H2 & H3 & H4).
      rewrite H1, H2, H3, H4 in Hsome. discriminate Hsome.
    + intros outcome [= <-].
      set (dataToExport :=
             {| workOrders := tableOf workOrder (processedData st);
                supplyRequests := tableOf supplyRequest (processedData st);
                uninstallations := tableOf uninstallation (processedData st);
                installations := tableOf installation (processedData st) |}).
      destruct (exportToExcel_calls_without_urls dataToExport Hsome)
        as (Hthrow & Happ & Hw).
      destruct (exportToExcel_run xlsx dataToExport None)
        as [->|(k & m & returned & call & _ & _ & ->)]; [done|].
      cbn [fst snd]. split; [by eauto|]. split; by apply omap_take_nil.
  - split; [|done]. split; [|done]. intros _.
    destruct (tableOf workOrder _), (tableOf supplyRequest _),
      (tableOf uninstallation _), (tableOf installation _); try discriminate Hsome.
    done.
Qed.

Lemma X12_witness :
  (∃ message, (exportToExcel sampleXlsx
                 {| workOrders := tableOf workOrder (processedData sampleSession);
                    supplyRequests := tableOf supplyRequest (processedData sampleSession);
                    uninstallations := tableOf uninstallation (processedData sampleSession);
                    installations := tableOf installation (processedData sampleSession) |}
                 None).2 = Throw message) ∧
  appendedSheets (exportToExcel sampleXlsx
                 {| workOrders := tableOf workOrder (processedData sampleSession);
                    supplyRequests := tableOf supplyRequest (processedData sampleSession);
                    uninstallations := tableOf uninstallation (processedData sampleSession);
                    installations := tableOf installation (processedData sampleSession) |}
                 None).1 = [] ∧
  writtenFiles (exportToExcel sampleXlsx
                 {| workOrders := tableOf workOrder (processedData sampleSession);
                    supplyRequests := tableOf supplyRequest (processedData sampleSession);
                    uninstallations := tableOf uninstallation (processedData sampleSession);
                    installations := tableOf installation (processedData sampleSession) |}
                 None).1 = [].
Proof.
  apply (proj2 (X12_export_all_throws_before_writing sampleXlsx sampleSession)).
  reflexivity.
Defined.

(** ** The classifier *)

(** X13. The classifier never throws. It answers a document type exactly
    when the request succeeded and the trimmed text of the response is the
    name of that type; any other text and any failure of the request give
    [unknown]. So a file whose classification request fails is recorded by
    the batch with the message "No se pudo reconocer el tipo de
    documento.", whatever the request's own error said, and its extractors
    are not consulted. *)
Theorem X13_classifier_answers_and_masks_errors
    (trim : string → string) (generateContent : string → Result string) :
  (∀ base64Pdf t,
     Gemini.classifyDocument trim generateContent base64Pdf = Known t ↔
     ∃ text, generateContent base64Pdf = Ok text ∧ trim text = typeName t) ∧
  (∀ svc file base64String message,
     fileToBase64 svc file = Ok base64String →
     generateContent base64String = Throw message →
     answer (withGeminiClassifier trim generateContent svc) file = Unrecognised ∧
     processFile (withGeminiClassifier trim generateContent svc) file =
       failureRecord file "No se pudo reconocer el tipo de documento.").
Proof.
  split.
  - intros b t. unfold Gemini.classifyDocument.
    destruct (generateContent b) as [text|m]; [|split; [done|by intros (? & ? & ?)]].
    cbn zeta. split.
    + intros Hk. exists text. split; [done|]. revert Hk.
      destruct (String.eqb_spec (trim text) "workOrder") as [E|_];
        [by intros [= <-]|].
      destruct (String.eqb_spec (trim text) "supplyRequest") as [E|_];
        [by intros [= <-]|].
      destruct (String.eqb_spec (trim text) "uninstallation") as [E|_];
        [by intros [= <-]|].
      destruct (String.eqb_spec (trim text) "installation") as [E|_];
        [by intros [= <-]|].
      discriminate.
    + intros (text' & [= <-] & ->). by destruct t.
  - intros svc file b m Hb Hg.
    assert (answer (withGeminiClassifier trim generateContent svc) file = Unrecognised) as Ha.
    { unfold answer. cbn. rewrite Hb. unfold Gemini.classifyDocument. by rewrite Hg. }
    split; [done|]. apply processFile_failure. by rewrite Ha.
Qed.

Lemma X13_witness :
  answer (withGeminiClassifier id brokenRequest sampleService) scan1 = Unrecognised ∧
  processFile (withGeminiClassifier id brokenRequest sampleService) scan1 =
    failureRecord scan1 "No se pudo reconocer el tipo de documento.".
Proof.
  apply (proj2 (X13_classifier_answers_and_masks_errors id brokenRequest)
           sampleService scan1 "W" "API key not valid"); reflexivity.
Defined.
